(** * WiredTigerSnapshotManager: snapshot and timestamp coordination

    A shallow embedding of
    [src/mongo/db/storage/wiredtiger/wiredtiger_snapshot_manager.cpp].

    The manager keeps three members under one mutex, the optional committed
    snapshot name, the oldest kept timestamp and a WT_SESSION pointer used for
    snapshot administration.  Every member function is embedded as a
    computation that threads the manager together with the chronological
    list of events it causes (mutex operations and calls into WiredTiger),
    and that ends in a normal return, a thrown [uassert], an abort caused by
    [invariant]/[invariantWTOK], or a dereference of a null [_session].

    Left out: [prepareForCreateSnapshot], which only forwards to the recovery
    unit, and the [LOG(2)] line of [setCommittedSnapshot]. *)

From Stdlib Require Import ZArith List String Ascii Bool Lia Sorted.
Import ListNotations.

Local Open Scope Z_scope.

(** ** Unsigned 64-bit values

    [SnapshotName::asU64] and [Timestamp::asULL] both yield a 64-bit unsigned
    integer.  They are carried as [Z] together with the range predicate. *)

Definition u64_max : Z := 2 ^ 64 - 1.

Definition u64 (n : Z) : Prop := 0 <= n <= u64_max.

(** ** Rendering of unsigned integers

    [digits_lsf base fuel n] lists the digits of [n] in [base], least
    significant first, and stops as soon as the quotient is zero: no leading
    zero is produced, and zero itself is the single digit 0.  This is what
    both the [%llx] conversion of [snprintf] and the decimal insertion
    operator of the string builders print. *)

Fixpoint digits_lsf (base : Z) (fuel : nat) (n : Z) : list Z :=
  match fuel with
  | O => []
  | S fuel' =>
      (n mod base) ::
      (if n / base =? 0 then [] else digits_lsf base fuel' (n / base))
  end.

(** The digit characters, in order of value; [%llx] prints lowercase. *)
Definition digit_alphabet : string := "0123456789abcdef".

Definition digit_char (d : Z) : ascii :=
  match String.get (Z.to_nat d) digit_alphabet with
  | Some c => c
  | None => "f"%char
  end.

Definition render (base : Z) (fuel : nat) (n : Z) : string :=
  string_of_list_ascii (map digit_char (rev (digits_lsf base fuel n))).

(** [%llx]: an unsigned long long has at most 16 hexadecimal digits. *)
Definition llx (n : Z) : string := render 16 16 n.

(** Modelled from the spec: the insertion operator [<<] of [str::stream] and
    [StringBuilder] for an unsigned 64-bit value is declared outside this
    file; the interface table gives its output as [<decimal>]
    ([name=<decimal>], [drop=(before=<decimal>)]).  A 64-bit value has at most
    20 decimal digits. *)
Definition dec (n : Z) : string := render 10 20 n.

(** Reading a rendered number back, as the engine's configuration parser
    does: the value of a digit character, and of a digit string. *)

Fixpoint position_from (i : Z) (c : ascii) (alphabet : string) : option Z :=
  match alphabet with
  | EmptyString => None
  | String a alphabet' =>
      if Ascii.eqb c a then Some i else position_from (i + 1) c alphabet'
  end.

Definition char_digit (c : ascii) : option Z := position_from 0 c digit_alphabet.

Fixpoint parse_from (base : Z) (acc : Z) (s : string) : option Z :=
  match s with
  | EmptyString => Some acc
  | String c s' =>
      match char_digit c with
      | Some d => if d <? base then parse_from base (acc * base + d) s' else None
      | None => None
      end
  end.

Definition parse (base : Z) (s : string) : option Z :=
  match s with
  | EmptyString => None
  | _ => parse_from base 0 s
  end.

(** The rendering the interface description asks for, used only for
    comparison with what the code prints: exactly [width] digits, padded on
    the left with zeros. *)
Definition fixed_width_hex (width : nat) (n : Z) : string :=
  let ds := digits_lsf 16 width n in
  string_of_list_ascii
    (repeat "0"%char (width - List.length ds) ++ map digit_char (rev ds)).

(** [snprintf(buf, bufsz, fmt, ...)]: at most [bufsz - 1] characters of the
    formatted text are stored (followed by the terminating null), and the
    length of the whole formatted text is returned. *)
Definition snprintf (bufsz : Z) (formatted : string) : string * Z :=
  (substring 0 (Z.to_nat (bufsz - 1)) formatted,
   Z.of_nat (String.length formatted)).

(** ** The manager and the world around it *)

(** A [WT_SESSION] or [WT_CONNECTION] object is identified by a number; a
    pointer to one is an [option], [None] being [nullptr]. *)
Definition WT_SESSION := nat.
Definition WT_CONNECTION := nat.
Bind Scope nat_scope with WT_SESSION WT_CONNECTION.

Record WiredTigerSnapshotManager : Type := mkManager {
  _committedSnapshot : option Z;      (* boost::optional<SnapshotName> *)
  _oldestKeptTimestamp : Z;           (* Timestamp *)
  _session : option WT_SESSION;       (* WT_SESSION*, for snapshot management *)
  _conn : WT_CONNECTION               (* WT_CONNECTION*, not owned *)
}.

Definition set_committedSnapshot (v : option Z) (m : WiredTigerSnapshotManager) :=
  mkManager v (_oldestKeptTimestamp m) (_session m) (_conn m).

Definition set_oldestKeptTimestamp (v : Z) (m : WiredTigerSnapshotManager) :=
  mkManager (_committedSnapshot m) v (_session m) (_conn m).

Definition set_session (v : option WT_SESSION) (m : WiredTigerSnapshotManager) :=
  mkManager (_committedSnapshot m) (_oldestKeptTimestamp m) v (_conn m).

(** The replication timestamp source, as far as this file uses it. *)
Record WiredTigerOplogManager : Type := mkOplogManager {
  oplogReadTimestamp : Z             (* what getOplogReadTimestamp() returns *)
}.

(** Calls into the storage engine, with the configuration string passed. *)
Inductive EngineCall : Type :=
| conn_set_timestamp (conn : WT_CONNECTION) (config : string)
| session_snapshot (session : WT_SESSION) (config : string)
| session_close (session : WT_SESSION)
| session_begin_transaction (session : WT_SESSION) (config : string).

Inductive Event : Type :=
| Lock                          (* _mutex acquired by a lock_guard *)
| Unlock                        (* _mutex released when the guard is destroyed *)
| GetOplogReadTimestamp         (* oplogManager->getOplogReadTimestamp() *)
| Call (c : EngineCall).

Record World : Type := mkWorld {
  mgr : WiredTigerSnapshotManager;
  trace : list Event               (* chronological *)
}.

Definition is_engine_call (e : Event) : bool :=
  match e with Call _ => true | _ => false end.

Definition engine_calls (t : list Event) : list Event := filter is_engine_call t.

Definition is_close (e : Event) : bool :=
  match e with Call (session_close _) => true | _ => false end.

(** ** Outcomes *)

Inductive ErrorCode : Type :=
| ReadConcernMajorityNotAvailableYet.

Inductive Fatal : Type :=
| InvariantFailure              (* invariant(cond) with cond false *)
| WTError (rc : Z).             (* invariantWTOK(rc) with rc <> 0 *)

Inductive Outcome (A : Type) : Type :=
| Returned (a : A)                               (* normal return *)
| Thrown (code : ErrorCode) (reason : string)    (* uassert: exception to the caller *)
| Aborted (f : Fatal)                            (* the process is terminated *)
| NullDereference.                               (* member access through nullptr *)

Arguments Returned {A} a.
Arguments Thrown {A} code reason.
Arguments Aborted {A} f.
Arguments NullDereference {A}.

(** The process goes on after a return or an exception, and not otherwise. *)
Definition continues {A} (o : Outcome A) : bool :=
  match o with
  | Returned _ | Thrown _ _ => true
  | Aborted _ | NullDereference => false
  end.

(** ** The computation monad: state, event log and outcome *)

Definition M (A : Type) : Type := World -> Outcome A * World.

Definition ret {A} (a : A) : M A := fun w => (Returned a, w).

Definition bind {A B} (c : M A) (k : A -> M B) : M B :=
  fun w =>
    match c w with
    | (Returned a, w') => k a w'
    | (Thrown code reason, w') => (Thrown code reason, w')
    | (Aborted f, w') => (Aborted f, w')
    | (NullDereference, w') => (NullDereference, w')
    end.

Declare Scope snap_scope.
Delimit Scope snap_scope with snap.
Notation "x <- c ;; k" := (bind c (fun x => k))
  (at level 61, c at next level, right associativity) : snap_scope.
Notation "c ;; k" := (bind c (fun _ => k))
  (at level 61, right associativity) : snap_scope.

Definition gets {A} (f : WiredTigerSnapshotManager -> A) : M A :=
  fun w => (Returned (f (mgr w)), w).

Definition modify (f : WiredTigerSnapshotManager -> WiredTigerSnapshotManager) : M unit :=
  fun w => (Returned tt, mkWorld (f (mgr w)) (trace w)).

Definition emit (e : Event) : M unit :=
  fun w => (Returned tt, mkWorld (mgr w) (trace w ++ [e])).

Definition throw {A} (code : ErrorCode) (reason : string) : M A :=
  fun w => (Thrown code reason, w).

Definition abort {A} (f : Fatal) : M A := fun w => (Aborted f, w).

Definition invariant (cond : bool) : M unit :=
  if cond then ret tt else abort InvariantFailure.

Definition invariantWTOK (rc : Z) : M unit :=
  if rc =? 0 then ret tt else abort (WTError rc).

(** [stdx::lock_guard<stdx::mutex> lock(_mutex)] around the rest of the
    function body: the guard's destructor releases the mutex on return and
    when an exception unwinds, not when the process aborts. *)
Definition lock_guard {A} (body : M A) : M A :=
  fun w =>
    let (o, w') := body (mkWorld (mgr w) (trace w ++ [Lock])) in
    if continues o then (o, mkWorld (mgr w') (trace w' ++ [Unlock])) else (o, w').

(** [_session->...]: the member pointer is dereferenced without a test. *)
Definition deref_session : M WT_SESSION :=
  fun w =>
    match _session (mgr w) with
    | Some s => (Returned s, w)
    | None => (NullDereference, w)
    end.

Inductive Status : Type :=
| StatusOK
| StatusError (rc : Z).

(** Modelled from the spec: [wtRCToStatus] is declared outside this file;
    the engine's result is returned verbatim, zero being success. *)
Definition wtRCToStatus (rc : Z) : Status :=
  if rc =? 0 then StatusOK else StatusError rc.

(** Modelled from the spec: the constructor is declared outside this file;
    the committed snapshot starts empty, the oldest kept timestamp starts at
    zero and the session is created at construction. *)
Definition init (conn : WT_CONNECTION) (session : WT_SESSION) : World :=
  mkWorld (mkManager None 0 (Some session) conn) [].

Section Operations.

(** The engine: the return code of a call, given everything that happened
    before it.  Zero is success. *)
Variable wt : list Event -> EngineCall -> Z.

Local Open Scope snap_scope.
Local Open Scope string_scope.

Definition wt_call (c : EngineCall) : M Z :=
  fun w => (Returned (wt (trace w) c), mkWorld (mgr w) (trace w ++ [Call c])).

Definition createSnapshot (session : WT_SESSION) (name : Z) : M Status :=
  let config := "name=" ++ dec name in
  rc <- wt_call (session_snapshot session config) ;;
  ret (wtRCToStatus rc).

Definition setCommittedSnapshot (name : Z) (ts : Z) : M unit :=
  lock_guard (
    committed <- gets _committedSnapshot ;;
    invariant (match committed with
               | None => true
               | Some current => (current <=? name)%Z
               end) ;;
    modify (set_committedSnapshot (Some name)) ;;
    let bufsz := Z.of_nat (String.length "oldest_timestamp=")
                 + (8 * 2) (* 16 hexadecimal digits *) + 1 (* trailing null *) in
    let (oldestTSConfigString, size) :=
      snprintf bufsz ("oldest_timestamp=" ++ llx ts) in
    invariant (size <? bufsz)%Z ;;
    conn <- gets _conn ;;
    rc <- wt_call (conn_set_timestamp conn oldestTSConfigString) ;;
    invariantWTOK rc ;;
    modify (set_oldestKeptTimestamp ts)).

Definition cleanupUnneededSnapshots : M unit :=
  lock_guard (
    committed <- gets _committedSnapshot ;;
    match committed with
    | None => ret tt
    | Some name =>
        let config := "drop=(before=" ++ dec name ++ ")" in
        session <- deref_session ;;
        rc <- wt_call (session_snapshot session config) ;;
        invariantWTOK rc
    end).

Definition dropAllSnapshots : M unit :=
  lock_guard (
    modify (set_committedSnapshot None) ;;
    session <- deref_session ;;
    rc <- wt_call (session_snapshot session "drop=(all)") ;;
    invariantWTOK rc).

Definition shutdown : M unit :=
  lock_guard (
    session <- gets _session ;;
    match session with
    | None => ret tt
    | Some s =>
        rc <- wt_call (session_close s) ;;
        invariantWTOK rc ;;
        modify (set_session None)
    end).

Definition getMinSnapshotForNextCommittedRead : M (option Z) :=
  lock_guard (gets _committedSnapshot).

Definition beginTransactionOnCommittedSnapshot (session : WT_SESSION) : M Z :=
  lock_guard (
    committed <- gets _committedSnapshot ;;
    match committed with
    | None =>
        throw ReadConcernMajorityNotAvailableYet
              "Committed view disappeared while running operation"
    | Some name =>
        let config := "snapshot=" ++ dec name in
        rc <- wt_call (session_begin_transaction session config) ;;
        invariantWTOK rc ;;
        ret name
    end).

Definition beginTransactionOnOplog (oplogManager : WiredTigerOplogManager)
                                   (session : WT_SESSION) : M unit :=
  emit GetOplogReadTimestamp ;;
  let allCommittedTimestamp := oplogReadTimestamp oplogManager in
  lock_guard (
    oldest <- gets _oldestKeptTimestamp ;;
    let readTimestamp := Z.max allCommittedTimestamp oldest in
    let bufsz := 15 (* read_timestamp= *) + (8 * 2) (* 16 hexadecimal digits *)
                 + 1 (* trailing null *) in
    let (readTSConfigString, size) :=
      snprintf bufsz ("read_timestamp=" ++ llx readTimestamp) in
    invariant (size <? bufsz)%Z ;;
    rc <- wt_call (session_begin_transaction session readTSConfigString) ;;
    invariantWTOK rc).

(** *** Sequences of calls *)

Inductive Op : Type :=
| CreateSnapshot (session : WT_SESSION) (name : Z)
| SetCommittedSnapshot (name : Z) (ts : Z)
| CleanupUnneededSnapshots
| DropAllSnapshots
| Shutdown
| GetMinSnapshotForNextCommittedRead
| BeginTransactionOnCommittedSnapshot (session : WT_SESSION)
| BeginTransactionOnOplog (oplogManager : WiredTigerOplogManager)
                          (session : WT_SESSION).

Inductive Value : Type :=
| VVoid
| VStatus (s : Status)
| VOptName (n : option Z)
| VName (n : Z).

Definition step (op : Op) : M Value :=
  match op with
  | CreateSnapshot session name =>
      s <- createSnapshot session name ;; ret (VStatus s)
  | SetCommittedSnapshot name ts =>
      setCommittedSnapshot name ts ;; ret VVoid
  | CleanupUnneededSnapshots => cleanupUnneededSnapshots ;; ret VVoid
  | DropAllSnapshots => dropAllSnapshots ;; ret VVoid
  | Shutdown => shutdown ;; ret VVoid
  | GetMinSnapshotForNextCommittedRead =>
      n <- getMinSnapshotForNextCommittedRead ;; ret (VOptName n)
  | BeginTransactionOnCommittedSnapshot session =>
      n <- beginTransactionOnCommittedSnapshot session ;; ret (VName n)
  | BeginTransactionOnOplog oplogManager session =>
      beginTransactionOnOplog oplogManager session ;; ret VVoid
  end.

(** A client performs the calls one after the other; an exception is
    caught by the caller, an abort or a null dereference ends the run. *)
Fixpoint run (ops : list Op) (w : World) : list (Op * Outcome Value) * World :=
  match ops with
  | [] => ([], w)
  | op :: rest =>
      let (o, w') := step op w in
      if continues o
      then let (log, w'') := run rest w' in ((op, o) :: log, w'')
      else ([(op, o)], w')
  end.

End Operations.

(** The [setCommittedSnapshot] calls of a run that returned normally, as
    pairs (name, ts), in order. *)
Fixpoint accepted (log : list (Op * Outcome Value)) : list (Z * Z) :=
  match log with
  | [] => []
  | (SetCommittedSnapshot name ts, Returned _) :: rest => (name, ts) :: accepted rest
  | _ :: rest => accepted rest
  end.

(** An engine that accepts every call. *)
Definition wt_ok : list Event -> EngineCall -> Z := fun _ _ => 0.

(** An engine that rejects every call with the given code. *)
Definition wt_fail (rc : Z) : list Event -> EngineCall -> Z := fun _ _ => rc.

(** ** Vocabulary for the statements *)

(** The monotonicity test of [setCommittedSnapshot]. *)
Definition may_advance (committed : option Z) (name : Z) : bool :=
  match committed with
  | None => true
  | Some current => current <=? name
  end.

(** The engine calls the member functions make. *)
Definition oldest_timestamp_call (w : World) (ts : Z) : EngineCall :=
  conn_set_timestamp (_conn (mgr w)) ("oldest_timestamp=" ++ llx ts).

Definition read_timestamp_call (session : WT_SESSION) (readTimestamp : Z) : EngineCall :=
  session_begin_transaction session ("read_timestamp=" ++ llx readTimestamp).

Definition snapshot_call (session : WT_SESSION) (name : Z) : EngineCall :=
  session_begin_transaction session ("snapshot=" ++ dec name).

Definition drop_before_call (session : WT_SESSION) (name : Z) : EngineCall :=
  session_snapshot session ("drop=(before=" ++ dec name ++ ")").

Definition drop_all_call (session : WT_SESSION) : EngineCall :=
  session_snapshot session "drop=(all)".

(** The engine's reading of a configuration string [key ++ value]. *)
Fixpoint strip_prefix (p s : string) : option string :=
  match p, s with
  | EmptyString, _ => Some s
  | String a p', String b s' => if Ascii.eqb a b then strip_prefix p' s' else None
  | String _ _, EmptyString => None
  end.

Definition config_number (base : Z) (key config : string) : option Z :=
  match strip_prefix key config with
  | Some value => parse base value
  | None => None
  end.

(** A rendering has a fixed width when all 64-bit values print with the
    same number of characters. *)
Definition fixed_width (f : Z -> string) : Prop :=
  exists width : nat, forall n, u64 n -> String.length (f n) = width.

(** Worlds as the C++ types allow them: both numbers are 64-bit. *)
Definition well_formed (w : World) : Prop :=
  u64 (_oldestKeptTimestamp (mgr w)) /\
  match _committedSnapshot (mgr w) with
  | Some name => u64 name
  | None => True
  end.

Definition set_calls (calls : list (Z * Z)) : list Op :=
  map (fun c => SetCommittedSnapshot (fst c) (snd c)) calls.

Definition is_dropAll (op : Op) : bool :=
  match op with DropAllSnapshots => true | _ => false end.

(** Lower bound carried by a committed snapshot. *)
Definition above (committed : option Z) (names : list Z) : Prop :=
  match committed with
  | Some current => Forall (Z.le current) names
  | None => True
  end.

(** The configuration strings that reached the engine, in order. *)
Definition config_of (e : Event) : list string :=
  match e with
  | Call (conn_set_timestamp _ config)
  | Call (session_snapshot _ config)
  | Call (session_begin_transaction _ config) => [config]
  | _ => []
  end.

Definition configs (t : list Event) : list string := flat_map config_of t.

(** The engine's reading of a number that is closed by [stop], as in
    [drop=(before=<name>)]: the number and what follows the closing
    character. *)
Fixpoint parse_until (stop : ascii) (base acc : Z) (s : string) : option (Z * string) :=
  match s with
  | EmptyString => None
  | String c s' =>
      if Ascii.eqb c stop then Some (acc, s')
      else match char_digit c with
           | Some d => if d <? base then parse_until stop base (acc * base + d) s' else None
           | None => None
           end
  end.

Inductive DropTarget : Type :=
| DropAll
| DropBefore (name : Z).

Definition drop_target (config : string) : option DropTarget :=
  if String.eqb config "drop=(all)" then Some DropAll
  else match strip_prefix "drop=(before=" config with
       | Some rest =>
           match parse_until ")" 10 0 rest with
           | Some (name, EmptyString) => Some (DropBefore name)
           | _ => None
           end
       | None => None
       end.

(** ** Vocabulary for runs *)

(** The mutex along a trace, starting held or free.  [Some held'] when every
    [Lock] finds the mutex free, every [Unlock] finds it held, the oplog
    manager is only asked while it is free, and [set_timestamp], [close] and
    [begin_transaction] are only called while it is held; [None] otherwise. *)
Fixpoint mutex_after (held : bool) (t : list Event) : option bool :=
  match t with
  | [] => Some held
  | Lock :: t' => if held then None else mutex_after true t'
  | Unlock :: t' => if held then mutex_after false t' else None
  | GetOplogReadTimestamp :: t' => if held then None else mutex_after held t'
  | Call (session_snapshot _ _) :: t' => mutex_after held t'
  | Call _ :: t' => if held then mutex_after held t' else None
  end.

(** The retention floor along a trace.  Every [oldest_timestamp=] sent to
    the engine moves the floor; [Some floor'] when every [read_timestamp=]
    sent to the engine is at or above the floor of that moment, [None] when
    one is below it or an [oldest_timestamp=] cannot be read. *)
Fixpoint floor_after (floor : Z) (t : list Event) : option Z :=
  match t with
  | [] => Some floor
  | Call (conn_set_timestamp _ config) :: t' =>
      match config_number 16 "oldest_timestamp=" config with
      | Some ts => floor_after ts t'
      | None => None
      end
  | Call (session_begin_transaction _ config) :: t' =>
      match config_number 16 "read_timestamp=" config with
      | Some readTimestamp =>
          if floor <=? readTimestamp then floor_after floor t' else None
      | None => floor_after floor t'
      end
  | _ :: t' => floor_after floor t'
  end.

(** The committed snapshots readers were given in a run: what
    [getMinSnapshotForNextCommittedRead] and
    [beginTransactionOnCommittedSnapshot] returned, in order. *)
Fixpoint observed (log : list (Op * Outcome Value)) : list Z :=
  match log with
  | [] => []
  | (_, Returned (VOptName (Some name))) :: rest => name :: observed rest
  | (_, Returned (VName name)) :: rest => name :: observed rest
  | _ :: rest => observed rest
  end.

(** The process is still running after the last call of the log. *)
Definition survived (log : list (Op * Outcome Value)) : bool :=
  forallb (fun entry => continues (snd entry)) log.

(** The numbers a call carries are 64-bit, as its C++ signature says. *)
Definition op_u64 (op : Op) : Prop :=
  match op with
  | CreateSnapshot _ name => u64 name
  | SetCommittedSnapshot name ts => u64 name /\ u64 ts
  | BeginTransactionOnOplog oplogManager _ => u64 (oplogReadTimestamp oplogManager)
  | _ => True
  end.

(** * Properties *)

(** ** Strings *)

Lemma string_of_list_ascii_app (l1 l2 : list ascii) :
  string_of_list_ascii (l1 ++ l2) =
  (string_of_list_ascii l1 ++ string_of_list_ascii l2)%string.
Proof.
  induction l1 as [|c l1 IH]; simpl; [reflexivity|].
  now rewrite IH.
Qed.

Lemma string_of_list_ascii_length (l : list ascii) :
  String.length (string_of_list_ascii l) = List.length l.
Proof.
  induction l as [|c l IH]; simpl; congruence.
Qed.

Lemma append_length (s1 s2 : string) :
  String.length (s1 ++ s2)%string = (String.length s1 + String.length s2)%nat.
Proof.
  induction s1 as [|c s1 IH]; simpl; congruence.
Qed.

Lemma substring_whole (s : string) (n : nat) :
  (String.length s <= n)%nat -> substring 0 n s = s.
Proof.
  revert n; induction s as [|c s IH]; intros n Hn.
  - destruct n; reflexivity.
  - destruct n as [|n]; simpl in *; [lia|].
    rewrite IH by lia. reflexivity.
Qed.

(** ** Digits *)

Lemma digits_lsf_length_le (base : Z) (fuel : nat) (n : Z) :
  (List.length (digits_lsf base fuel n) <= fuel)%nat.
Proof.
  revert n; induction fuel as [|fuel IH]; intros n; simpl; [lia|].
  destruct (n / base =? 0); simpl; [lia|].
  specialize (IH (n / base)). lia.
Qed.

Lemma digits_lsf_length_pos (base : Z) (fuel : nat) (n : Z) :
  (1 <= List.length (digits_lsf base (S fuel) n))%nat.
Proof. simpl. lia. Qed.

Lemma char_digit_digit_char (d : Z) :
  0 <= d < 16 -> char_digit (digit_char d) = Some d.
Proof.
  intros Hd.
  assert (H : d = 0 \/ d = 1 \/ d = 2 \/ d = 3 \/ d = 4 \/ d = 5 \/ d = 6 \/ d = 7 \/
              d = 8 \/ d = 9 \/ d = 10 \/ d = 11 \/ d = 12 \/ d = 13 \/ d = 14 \/
              d = 15) by lia.
  repeat (destruct H as [H|H]; [subst d; reflexivity|]).
  subst d; reflexivity.
Qed.

Lemma parse_from_app (base acc : Z) (s1 s2 : string) :
  parse_from base acc (s1 ++ s2)%string =
  match parse_from base acc s1 with
  | Some acc' => parse_from base acc' s2
  | None => None
  end.
Proof.
  revert acc; induction s1 as [|c s1 IH]; intros acc; simpl; [reflexivity|].
  destruct (char_digit c) as [d|]; [|reflexivity].
  destruct (d <? base); [apply IH | reflexivity].
Qed.

Lemma render_step (base : Z) (fuel : nat) (n : Z) :
  render base (S fuel) n =
  if n / base =? 0
  then String (digit_char (n mod base)) EmptyString
  else (render base fuel (n / base)
        ++ String (digit_char (n mod base)) EmptyString)%string.
Proof.
  unfold render; simpl.
  destruct (n / base =? 0); simpl; [reflexivity|].
  now rewrite map_app, string_of_list_ascii_app.
Qed.

Lemma render_length (base : Z) (fuel : nat) (n : Z) :
  String.length (render base fuel n) = List.length (digits_lsf base fuel n).
Proof.
  unfold render.
  now rewrite string_of_list_ascii_length, length_map, length_rev.
Qed.

Lemma render_nonempty (base : Z) (fuel : nat) (n : Z) :
  render base (S fuel) n <> EmptyString.
Proof.
  intros H. pose proof (render_length base (S fuel) n) as L.
  rewrite H in L. simpl in L. lia.
Qed.

(** Reading back a rendered number continues the accumulator by as many
    positions as digits were printed. *)
Lemma parse_from_render (base : Z) (fuel : nat) :
  1 < base <= 16 ->
  forall n acc, 0 <= n < base ^ Z.of_nat fuel ->
    parse_from base acc (render base fuel n) =
    Some (acc * base ^ Z.of_nat (List.length (digits_lsf base fuel n)) + n).
Proof.
  intros Hb. induction fuel as [|fuel IH]; intros n acc Hn.
  - simpl in Hn. assert (n = 0) by lia. subst n.
    unfold render; simpl. f_equal. lia.
  - rewrite render_step.
    assert (Hm : 0 <= n mod base < base) by (apply Z.mod_pos_bound; lia).
    assert (Hdiv : n = base * (n / base) + n mod base)
      by (apply Z.div_mod; lia).
    simpl digits_lsf.
    destruct (n / base =? 0) eqn:Hq.
    + apply Z.eqb_eq in Hq.
      simpl. rewrite char_digit_digit_char by lia.
      destruct (Z.ltb_spec (n mod base) base) as [_|]; [|lia].
      f_equal. rewrite Hq in Hdiv. nia.
    + apply Z.eqb_neq in Hq.
      rewrite parse_from_app.
      assert (Hq' : 0 <= n / base < base ^ Z.of_nat fuel).
      { split; [apply Z.div_pos; lia|].
        apply Z.div_lt_upper_bound; [lia|].
        rewrite Nat2Z.inj_succ, Z.pow_succ_r in Hn by lia. lia. }
      rewrite IH by assumption.
      simpl parse_from. rewrite char_digit_digit_char by lia.
      destruct (Z.ltb_spec (n mod base) base) as [_|]; [|lia].
      f_equal.
      change (List.length (n mod base :: digits_lsf base fuel (n / base)))
        with (S (List.length (digits_lsf base fuel (n / base)))).
      rewrite Nat2Z.inj_succ, Z.pow_succ_r by lia.
      nia.
Qed.

Lemma parse_render (base : Z) (fuel : nat) (n : Z) :
  1 < base <= 16 -> 0 <= n < base ^ Z.of_nat (S fuel) ->
  parse base (render base (S fuel) n) = Some n.
Proof.
  intros Hb Hn. unfold parse.
  pose proof (render_nonempty base fuel n) as Hne.
  destruct (render base (S fuel) n) eqn:E; [congruence|].
  rewrite <- E, parse_from_render by assumption.
  f_equal; lia.
Qed.

(** The number of digits printed is the least possible: a positive number
    printed with [k] digits is at least [base ^ (k - 1)]. *)
Lemma digits_lsf_minimal (base : Z) (fuel : nat) :
  1 < base ->
  forall n, 0 < n < base ^ Z.of_nat fuel ->
    base ^ (Z.of_nat (List.length (digits_lsf base fuel n)) - 1) <= n.
Proof.
  intros Hb. induction fuel as [|fuel IH]; intros n Hn.
  - simpl in Hn. lia.
  - simpl digits_lsf.
    assert (Hm : 0 <= n mod base < base) by (apply Z.mod_pos_bound; lia).
    assert (Hdiv : n = base * (n / base) + n mod base)
      by (apply Z.div_mod; lia).
    destruct (n / base =? 0) eqn:Hq.
    + simpl. lia.
    + apply Z.eqb_neq in Hq.
      assert (Hq' : 0 < n / base < base ^ Z.of_nat fuel).
      { split.
        - assert (0 <= n / base) by (apply Z.div_pos; lia). lia.
        - apply Z.div_lt_upper_bound; [lia|].
          rewrite Nat2Z.inj_succ, Z.pow_succ_r in Hn by lia. lia. }
      specialize (IH _ Hq').
      change (List.length (n mod base :: digits_lsf base fuel (n / base)))
        with (S (List.length (digits_lsf base fuel (n / base)))).
      rewrite Nat2Z.inj_succ.
      replace (Z.succ (Z.of_nat (List.length (digits_lsf base fuel (n / base)))) - 1)
        with (Z.succ (Z.of_nat (List.length (digits_lsf base fuel (n / base))) - 1))
        by lia.
      assert (1 <= List.length (digits_lsf base fuel (n / base)))%nat.
      { destruct fuel; [simpl in Hq'; lia | apply digits_lsf_length_pos]. }
      rewrite Z.pow_succ_r by lia.
      nia.
Qed.

Lemma u64_hex_range (n : Z) : u64 n -> 0 <= n < 16 ^ Z.of_nat 16.
Proof. unfold u64, u64_max. change (16 ^ Z.of_nat 16) with (2 ^ 64). lia. Qed.

Lemma u64_dec_range (n : Z) : u64 n -> 0 <= n < 10 ^ Z.of_nat 20.
Proof.
  unfold u64, u64_max.
  assert (2 ^ 64 < 10 ^ Z.of_nat 20) by reflexivity. lia.
Qed.

Lemma parse_llx (n : Z) : u64 n -> parse 16 (llx n) = Some n.
Proof.
  intros H. unfold llx. apply parse_render; [lia|].
  now apply u64_hex_range.
Qed.

Lemma parse_dec (n : Z) : u64 n -> parse 10 (dec n) = Some n.
Proof.
  intros H. unfold dec. apply parse_render; [lia|].
  now apply u64_dec_range.
Qed.

Lemma llx_length (n : Z) : (1 <= String.length (llx n) <= 16)%nat.
Proof.
  unfold llx. rewrite render_length. split.
  - apply digits_lsf_length_pos.
  - apply digits_lsf_length_le.
Qed.

Lemma llx_minimal (n : Z) :
  u64 n -> 0 < n -> 16 ^ (Z.of_nat (String.length (llx n)) - 1) <= n.
Proof.
  intros H Hpos. unfold llx. rewrite render_length.
  apply digits_lsf_minimal; [lia|].
  pose proof (u64_hex_range n H). lia.
Qed.

Lemma llx_inj (a b : Z) : u64 a -> u64 b -> llx a = llx b -> a = b.
Proof.
  intros Ha Hb E.
  pose proof (parse_llx a Ha) as Pa. pose proof (parse_llx b Hb) as Pb.
  rewrite E in Pa. congruence.
Qed.

Lemma dec_inj (a b : Z) : u64 a -> u64 b -> dec a = dec b -> a = b.
Proof.
  intros Ha Hb E.
  pose proof (parse_dec a Ha) as Pa. pose proof (parse_dec b Hb) as Pb.
  rewrite E in Pa. congruence.
Qed.

(** The buffers are large enough: [snprintf] stores the whole text and the
    size test after it succeeds, whatever the timestamp. *)
Lemma snprintf_llx_fits (prefix : string) (n : Z) :
  let bufsz := Z.of_nat (String.length prefix) + 8 * 2 + 1 in
  snprintf bufsz (prefix ++ llx n) =
    ((prefix ++ llx n)%string, Z.of_nat (String.length (prefix ++ llx n))) /\
  (Z.of_nat (String.length (prefix ++ llx n)) <? bufsz) = true.
Proof.
  intros bufsz. subst bufsz.
  pose proof (llx_length n) as L.
  pose proof (append_length prefix (llx n)) as A.
  split.
  - unfold snprintf. rewrite substring_whole; [reflexivity|]. lia.
  - apply Z.ltb_lt. lia.
Qed.

(** ** What each member function does

    One equation per member function, giving its outcome and the world it
    leaves in every case.  The theorems further down are read off these. *)

Section Behaviour.

Variable wt : list Event -> EngineCall -> Z.

Lemma setCommittedSnapshot_eq (name ts : Z) (w : World) :
  setCommittedSnapshot wt name ts w =
  if may_advance (_committedSnapshot (mgr w)) name
  then
    let c := oldest_timestamp_call w ts in
    let rc := wt (trace w ++ [Lock]) c in
    if rc =? 0
    then (Returned tt,
          mkWorld (mkManager (Some name) ts (_session (mgr w)) (_conn (mgr w)))
                  (trace w ++ [Lock; Call c; Unlock]))
    else (Aborted (WTError rc),
          mkWorld (set_committedSnapshot (Some name) (mgr w))
                  (trace w ++ [Lock; Call c]))
  else (Aborted InvariantFailure, mkWorld (mgr w) (trace w ++ [Lock])).
Proof.
  destruct (snprintf_llx_fits "oldest_timestamp=" ts) as [E1 E2].
  unfold setCommittedSnapshot, lock_guard, bind, gets, invariant, modify,
    may_advance, oldest_timestamp_call; cbn [mgr trace].
  destruct (_committedSnapshot (mgr w)) as [current|];
    [destruct (current <=? name)|]; cbn -[snprintf llx String.length Z.mul Z.add String.append];
    try reflexivity.
  all: rewrite E1, E2; unfold wt_call, invariantWTOK, ret, abort;
    cbn -[llx String.append]; rewrite <- ?app_assoc; cbn -[llx String.append];
    destruct (wt _ _ =? 0); cbn -[llx String.append]; rewrite <- ?app_assoc;
    reflexivity.
Qed.

Ltac unfold_op :=
  unfold lock_guard, bind, gets, modify, emit, throw, deref_session, wt_call,
    invariantWTOK, ret, abort;
  cbn -[llx dec String.append Z.max].

Ltac finish_op :=
  repeat (rewrite <- ?app_assoc; cbn -[llx dec String.append Z.max];
          try match goal with
              | |- context [wt ?t ?c =? 0] => destruct (wt t c =? 0)
              end);
  try reflexivity.

Lemma cleanupUnneededSnapshots_eq (w : World) :
  cleanupUnneededSnapshots wt w =
  match _committedSnapshot (mgr w) with
  | None => (Returned tt, mkWorld (mgr w) (trace w ++ [Lock; Unlock]))
  | Some name =>
      match _session (mgr w) with
      | None => (NullDereference, mkWorld (mgr w) (trace w ++ [Lock]))
      | Some s =>
          let c := drop_before_call s name in
          let rc := wt (trace w ++ [Lock]) c in
          if rc =? 0
          then (Returned tt, mkWorld (mgr w) (trace w ++ [Lock; Call c; Unlock]))
          else (Aborted (WTError rc), mkWorld (mgr w) (trace w ++ [Lock; Call c]))
      end
  end.
Proof.
  unfold cleanupUnneededSnapshots, drop_before_call. unfold_op.
  destruct (_committedSnapshot (mgr w)) as [name|]; unfold_op; finish_op.
  destruct (_session (mgr w)) as [s|]; unfold_op; finish_op.
Qed.

Lemma dropAllSnapshots_eq (w : World) :
  dropAllSnapshots wt w =
  let m := set_committedSnapshot None (mgr w) in
  match _session (mgr w) with
  | None => (NullDereference, mkWorld m (trace w ++ [Lock]))
  | Some s =>
      let c := drop_all_call s in
      let rc := wt (trace w ++ [Lock]) c in
      if rc =? 0
      then (Returned tt, mkWorld m (trace w ++ [Lock; Call c; Unlock]))
      else (Aborted (WTError rc), mkWorld m (trace w ++ [Lock; Call c]))
  end.
Proof.
  unfold dropAllSnapshots, drop_all_call. unfold_op.
  destruct (_session (mgr w)) as [s|]; unfold_op; finish_op.
Qed.

Lemma shutdown_eq (w : World) :
  shutdown wt w =
  match _session (mgr w) with
  | None => (Returned tt, mkWorld (mgr w) (trace w ++ [Lock; Unlock]))
  | Some s =>
      let c := session_close s in
      let rc := wt (trace w ++ [Lock]) c in
      if rc =? 0
      then (Returned tt,
            mkWorld (set_session None (mgr w)) (trace w ++ [Lock; Call c; Unlock]))
      else (Aborted (WTError rc), mkWorld (mgr w) (trace w ++ [Lock; Call c]))
  end.
Proof.
  unfold shutdown. unfold_op.
  destruct (_session (mgr w)) as [s|]; unfold_op; finish_op.
Qed.

Lemma getMinSnapshotForNextCommittedRead_eq (w : World) :
  getMinSnapshotForNextCommittedRead w =
  (Returned (_committedSnapshot (mgr w)),
   mkWorld (mgr w) (trace w ++ [Lock; Unlock])).
Proof.
  unfold getMinSnapshotForNextCommittedRead. unfold_op. finish_op.
Qed.

Lemma beginTransactionOnCommittedSnapshot_eq (session : WT_SESSION) (w : World) :
  beginTransactionOnCommittedSnapshot wt session w =
  match _committedSnapshot (mgr w) with
  | None =>
      (Thrown ReadConcernMajorityNotAvailableYet
              "Committed view disappeared while running operation",
       mkWorld (mgr w) (trace w ++ [Lock; Unlock]))
  | Some name =>
      let c := snapshot_call session name in
      let rc := wt (trace w ++ [Lock]) c in
      if rc =? 0
      then (Returned name, mkWorld (mgr w) (trace w ++ [Lock; Call c; Unlock]))
      else (Aborted (WTError rc), mkWorld (mgr w) (trace w ++ [Lock; Call c]))
  end.
Proof.
  unfold beginTransactionOnCommittedSnapshot, snapshot_call. unfold_op.
  destruct (_committedSnapshot (mgr w)) as [name|]; unfold_op; finish_op.
Qed.

Lemma beginTransactionOnOplog_eq (oplogManager : WiredTigerOplogManager)
                                 (session : WT_SESSION) (w : World) :
  beginTransactionOnOplog wt oplogManager session w =
  let readTimestamp :=
    Z.max (oplogReadTimestamp oplogManager) (_oldestKeptTimestamp (mgr w)) in
  let c := read_timestamp_call session readTimestamp in
  let rc := wt (trace w ++ [GetOplogReadTimestamp; Lock]) c in
  if rc =? 0
  then (Returned tt,
        mkWorld (mgr w) (trace w ++ [GetOplogReadTimestamp; Lock; Call c; Unlock]))
  else (Aborted (WTError rc),
        mkWorld (mgr w) (trace w ++ [GetOplogReadTimestamp; Lock; Call c])).
Proof.
  destruct (snprintf_llx_fits "read_timestamp="
              (Z.max (oplogReadTimestamp oplogManager) (_oldestKeptTimestamp (mgr w))))
    as [E1 E2].
  change (Z.of_nat (String.length "read_timestamp=") + 8 * 2 + 1)
    with (15 + 8 * 2 + 1) in E1, E2.
  unfold beginTransactionOnOplog, read_timestamp_call, lock_guard, bind, gets,
    emit, invariant.
  cbn -[snprintf llx String.length Z.mul Z.add String.append Z.max].
  rewrite E1, E2. unfold_op. finish_op.
Qed.

Lemma createSnapshot_eq (session : WT_SESSION) (name : Z) (w : World) :
  createSnapshot wt session name w =
  let c := session_snapshot session ("name=" ++ dec name) in
  (Returned (wtRCToStatus (wt (trace w) c)), mkWorld (mgr w) (trace w ++ [Call c])).
Proof. reflexivity. Qed.

End Behaviour.

(** ** Runs *)

Lemma engine_calls_app (t1 t2 : list Event) :
  engine_calls (t1 ++ t2) = engine_calls t1 ++ engine_calls t2.
Proof. apply filter_app. Qed.

Lemma last_cons_default {A} (a d : A) (l : list A) :
  last (a :: l) d = last l a.
Proof.
  revert a d; induction l as [|b l IH]; intros a d; [reflexivity|].
  change (last (a :: b :: l) d) with (last (b :: l) d).
  now rewrite (IH b d), (IH b a).
Qed.

Lemma strip_prefix_app (p s : string) : strip_prefix p (p ++ s) = Some s.
Proof.
  induction p as [|c p IH]; simpl; [reflexivity|].
  now rewrite Ascii.eqb_refl.
Qed.

Lemma config_number_hex (key : string) (n : Z) :
  u64 n -> config_number 16 key (key ++ llx n) = Some n.
Proof.
  intros H. unfold config_number. rewrite strip_prefix_app. now apply parse_llx.
Qed.

Lemma config_number_dec (key : string) (n : Z) :
  u64 n -> config_number 10 key (key ++ dec n) = Some n.
Proof.
  intros H. unfold config_number. rewrite strip_prefix_app. now apply parse_dec.
Qed.

Lemma above_nil (committed : option Z) : above committed [].
Proof. destruct committed; simpl; constructor. Qed.

Section Runs.

Variable wt : list Event -> EngineCall -> Z.

Ltac step_cases op w :=
  destruct op; unfold step, bind, ret;
  [ rewrite createSnapshot_eq
  | rewrite setCommittedSnapshot_eq;
    destruct (may_advance (_committedSnapshot (mgr w)) _) eqn:?
  | rewrite cleanupUnneededSnapshots_eq;
    destruct (_committedSnapshot (mgr w)) eqn:?;
    [destruct (_session (mgr w)) eqn:?|]
  | rewrite dropAllSnapshots_eq; destruct (_session (mgr w)) eqn:?
  | rewrite shutdown_eq; destruct (_session (mgr w)) eqn:?
  | rewrite getMinSnapshotForNextCommittedRead_eq
  | rewrite beginTransactionOnCommittedSnapshot_eq;
    destruct (_committedSnapshot (mgr w)) eqn:?
  | rewrite beginTransactionOnOplog_eq ];
  cbv zeta;
  repeat match goal with
         | |- context [wt ?t ?c =? 0] => destruct (wt t c =? 0) eqn:?
         end;
  cbn [fst snd mgr trace continues _committedSnapshot _oldestKeptTimestamp
       _session _conn set_committedSnapshot set_oldestKeptTimestamp set_session].

(** The oldest kept timestamp after one call. *)
Lemma step_oldest (op : Op) (w : World) :
  _oldestKeptTimestamp (mgr (snd (step wt op w))) =
  match op, fst (step wt op w) with
  | SetCommittedSnapshot _ ts, Returned _ => ts
  | _, _ => _oldestKeptTimestamp (mgr w)
  end.
Proof. step_cases op w; reflexivity. Qed.

(** The committed snapshot after one call the process survives. *)
Lemma step_committed (op : Op) (w : World) :
  continues (fst (step wt op w)) = true ->
  match op with
  | SetCommittedSnapshot name _ =>
      may_advance (_committedSnapshot (mgr w)) name = true /\
      fst (step wt op w) = Returned VVoid /\
      _committedSnapshot (mgr (snd (step wt op w))) = Some name
  | DropAllSnapshots => _committedSnapshot (mgr (snd (step wt op w))) = None
  | _ => _committedSnapshot (mgr (snd (step wt op w))) = _committedSnapshot (mgr w)
  end.
Proof. step_cases op w; intros C; try discriminate C; auto. Qed.

Lemma run_cons (op : Op) (rest : list Op) (w : World) :
  run wt (op :: rest) w =
  if continues (fst (step wt op w))
  then ((op, fst (step wt op w)) :: fst (run wt rest (snd (step wt op w))),
        snd (run wt rest (snd (step wt op w))))
  else ([(op, fst (step wt op w))], snd (step wt op w)).
Proof.
  simpl. destruct (step wt op w) as [o w']; simpl.
  destruct (continues o); [|reflexivity].
  destruct (run wt rest w'); reflexivity.
Qed.

Lemma accepted_cons (op : Op) (o : Outcome Value) (log : list (Op * Outcome Value)) :
  accepted ((op, o) :: log) =
  match op, o with
  | SetCommittedSnapshot name ts, Returned _ => (name, ts) :: accepted log
  | _, _ => accepted log
  end.
Proof. destruct op, o; reflexivity. Qed.

(** The oldest kept timestamp is the [ts] of the last accepted
    [setCommittedSnapshot], or what it was at the start. *)
Lemma run_oldest (ops : list Op) (w : World) :
  _oldestKeptTimestamp (mgr (snd (run wt ops w))) =
  last (map snd (accepted (fst (run wt ops w)))) (_oldestKeptTimestamp (mgr w)).
Proof.
  revert w; induction ops as [|op rest IH]; intros w; [reflexivity|].
  rewrite run_cons.
  pose proof (step_oldest op w) as Hs.
  destruct (continues (fst (step wt op w))) eqn:C; cbn [fst snd].
  - rewrite IH, Hs, accepted_cons.
    destruct op; try reflexivity.
    destruct (fst (step wt (SetCommittedSnapshot name ts) w)); try reflexivity.
    cbn [map snd]. now rewrite last_cons_default.
  - rewrite Hs, accepted_cons.
    destruct op; destruct (fst (step wt _ w)); try discriminate C; reflexivity.
Qed.

(** Without [dropAllSnapshots] in between, the accepted names ascend and
    stay above the committed snapshot the run started from. *)
Lemma run_accepted_sorted (ops : list Op) (w : World) :
  existsb is_dropAll ops = false ->
  StronglySorted Z.le (map fst (accepted (fst (run wt ops w)))) /\
  above (_committedSnapshot (mgr w)) (map fst (accepted (fst (run wt ops w)))).
Proof.
  revert w; induction ops as [|op rest IH]; intros w Hno.
  - simpl. split; [constructor | apply above_nil].
  - simpl existsb in Hno. apply orb_false_iff in Hno as [Hop Hrest].
    rewrite run_cons.
    pose proof (step_committed op w) as Hc.
    destruct (continues (fst (step wt op w))) eqn:C; cbn [fst snd].
    + specialize (Hc eq_refl).
      destruct (IH (snd (step wt op w)) Hrest) as [Sorted Above].
      rewrite accepted_cons.
      destruct op; try discriminate Hop;
        try (rewrite Hc in Above; destruct (fst (step wt _ w)); split; assumption).
      destruct Hc as (Adv & Ret & Com). rewrite Ret, Com in *.
      cbn [map fst]. unfold above in Above. split.
      * constructor; assumption.
      * unfold above, may_advance in *.
        destruct (_committedSnapshot (mgr w)) as [current|]; [|exact I].
        apply Z.leb_le in Adv. constructor; [assumption|].
        eapply Forall_impl; [|exact Above]. intros a Ha; cbn in Ha. lia.
    + rewrite accepted_cons.
      replace (accepted []) with (@nil (Z * Z)) by reflexivity.
      destruct op; destruct (fst (step wt _ w)); try discriminate C;
        (split; [constructor | apply above_nil]).
Qed.

End Runs.

Lemma set_calls_no_dropAll (calls : list (Z * Z)) :
  existsb is_dropAll (set_calls calls) = false.
Proof. induction calls as [|c calls IH]; simpl; auto. Qed.

(** ** Concrete runs *)

Example run_advance_read_cleanup :
  run wt_ok [SetCommittedSnapshot 10 26; BeginTransactionOnCommittedSnapshot 7;
             BeginTransactionOnOplog (mkOplogManager 50) 8; CleanupUnneededSnapshots]
      (init 1 2) =
  ([(SetCommittedSnapshot 10 26, Returned VVoid);
    (BeginTransactionOnCommittedSnapshot 7, Returned (VName 10));
    (BeginTransactionOnOplog (mkOplogManager 50) 8, Returned VVoid);
    (CleanupUnneededSnapshots, Returned VVoid)],
   mkWorld (mkManager (Some 10) 26 (Some 2%nat) 1)
     [Lock; Call (conn_set_timestamp 1 "oldest_timestamp=1a"); Unlock;
      Lock; Call (session_begin_transaction 7 "snapshot=10"); Unlock;
      GetOplogReadTimestamp;
      Lock; Call (session_begin_transaction 8 "read_timestamp=32"); Unlock;
      Lock; Call (session_snapshot 2 "drop=(before=10)"); Unlock]).
Proof. reflexivity. Qed.

(** When the engine rejects [set_timestamp] the process aborts between the
    two assignments: the committed snapshot is already the new one, the
    oldest kept timestamp still the old one, and the mutex is never
    released. *)
Example run_set_timestamp_rejected :
  run (wt_fail 22) [SetCommittedSnapshot 10 26; Shutdown] (init 1 2) =
  ([(SetCommittedSnapshot 10 26, Aborted (WTError 22))],
   mkWorld (mkManager (Some 10) 0 (Some 2%nat) 1)
     [Lock; Call (conn_set_timestamp 1 "oldest_timestamp=1a")]).
Proof. reflexivity. Qed.

(** The largest timestamp fills the buffer of [setCommittedSnapshot] up to
    its last character before the terminating null. *)
Example snprintf_largest_timestamp :
  snprintf 34 ("oldest_timestamp=" ++ llx u64_max) =
  ("oldest_timestamp=ffffffffffffffff"%string, 33).
Proof. reflexivity. Qed.

Example dec_largest : dec u64_max = "18446744073709551615"%string.
Proof. reflexivity. Qed.

(** * The claims *)

(** C1 (monotonicity).  In every sequence of [setCommittedSnapshot] calls the
    names of the accepted calls are non-decreasing; a call is accepted only
    when there is no committed snapshot or the committed snapshot is at most
    the new name; a call with a name strictly below the committed snapshot
    ends in the failed invariant, leaves the manager as it was and reaches
    the engine with nothing. *)
Theorem setCommittedSnapshot_monotonic
    (wt : list Event -> EngineCall -> Z) (calls : list (Z * Z)) (w : World) :
  StronglySorted Z.le (map fst (accepted (fst (run wt (set_calls calls) w))))
  /\ above (_committedSnapshot (mgr w))
           (map fst (accepted (fst (run wt (set_calls calls) w))))
  /\ (forall name ts,
        fst (setCommittedSnapshot wt name ts w) = Returned tt ->
        _committedSnapshot (mgr w) = None \/
        exists current,
          _committedSnapshot (mgr w) = Some current /\ current <= name)
  /\ (forall name ts current,
        _committedSnapshot (mgr w) = Some current -> name < current ->
        fst (setCommittedSnapshot wt name ts w) = Aborted InvariantFailure /\
        mgr (snd (setCommittedSnapshot wt name ts w)) = mgr w /\
        engine_calls (trace (snd (setCommittedSnapshot wt name ts w))) =
          engine_calls (trace w)).
Proof.
  destruct (run_accepted_sorted wt (set_calls calls) w (set_calls_no_dropAll calls))
    as [Sorted Above].
  repeat split; try assumption.
  - intros name ts. rewrite setCommittedSnapshot_eq. unfold may_advance.
    destruct (_committedSnapshot (mgr w)) as [current|]; [|now left].
    destruct (Z.leb_spec current name) as [Hle|Hlt]; [|discriminate].
    intros _. right. exists current. split; [reflexivity | assumption].
  - rewrite setCommittedSnapshot_eq. unfold may_advance. rewrite H.
    destruct (Z.leb_spec current name); [lia | reflexivity].
  - rewrite setCommittedSnapshot_eq. unfold may_advance. rewrite H.
    destruct (Z.leb_spec current name); [lia | reflexivity].
  - rewrite setCommittedSnapshot_eq. unfold may_advance. rewrite H.
    destruct (Z.leb_spec current name); [lia|]. cbn [snd trace].
    rewrite engine_calls_app. cbn. apply app_nil_r.
Qed.

Lemma setCommittedSnapshot_monotonic_witness :
  let w := init 1 2 in
  let w10 := snd (setCommittedSnapshot wt_ok 10 10 w) in
  map fst (accepted (fst (run wt_ok (set_calls [(1, 1); (3, 2); (3, 5); (2, 9); (7, 7)]) w)))
    = [1; 3; 3]
  /\ StronglySorted Z.le [1; 3; 3]
  /\ fst (setCommittedSnapshot wt_ok 10 10 w) = Returned tt
  /\ (_committedSnapshot (mgr w10) = Some 10 /\ 5 < 10)
  /\ fst (setCommittedSnapshot wt_ok 5 5 w10) = Aborted InvariantFailure
  /\ mgr (snd (setCommittedSnapshot wt_ok 5 5 w10)) = mgr w10.
Proof.
  intros w w10.
  pose proof (setCommittedSnapshot_monotonic wt_ok
                [(1, 1); (3, 2); (3, 5); (2, 9); (7, 7)] w) as (S & _ & _ & _).
  pose proof (setCommittedSnapshot_monotonic wt_ok [] w10) as (_ & _ & _ & F).
  assert (C : _committedSnapshot (mgr w10) = Some 10) by reflexivity.
  assert (L : 5 < 10) by lia.
  destruct (F 5 5 10 C L) as (F1 & F2 & _).
  split; [reflexivity|].
  split; [exact S|].
  split; [reflexivity|].
  split; [split; assumption|].
  split; assumption.
Defined.

(** C2 (read-timestamp bound).  [beginTransactionOnOplog] makes exactly one
    engine call, [begin_transaction] on the caller's session, and the read
    timestamp in its configuration string is the maximum of the timestamp
    obtained from the oplog manager and the oldest kept timestamp.  The oplog
    manager is asked before the mutex is taken. *)
Theorem beginTransactionOnOplog_read_timestamp
    (wt : list Event -> EngineCall -> Z) (oplogManager : WiredTigerOplogManager)
    (session : WT_SESSION) (w : World) :
  u64 (oplogReadTimestamp oplogManager) ->
  u64 (_oldestKeptTimestamp (mgr w)) ->
  let allCommittedTs := oplogReadTimestamp oplogManager in
  let oldestKeptTs := _oldestKeptTimestamp (mgr w) in
  let w' := snd (beginTransactionOnOplog wt oplogManager session w) in
  exists config tail,
    trace w' =
      trace w ++ [GetOplogReadTimestamp; Lock;
                  Call (session_begin_transaction session config)] ++ tail
    /\ engine_calls tail = []
    /\ config = ("read_timestamp=" ++ llx (Z.max allCommittedTs oldestKeptTs))%string
    /\ config_number 16 "read_timestamp=" config = Some (Z.max allCommittedTs oldestKeptTs)
    /\ mgr w' = mgr w.
Proof.
  intros Ha Ho allCommittedTs oldestKeptTs w'. subst w'.
  rewrite beginTransactionOnOplog_eq. cbv zeta. unfold read_timestamp_call.
  fold allCommittedTs oldestKeptTs.
  assert (Hm : u64 (Z.max allCommittedTs oldestKeptTs)).
  { unfold u64 in *. subst allCommittedTs oldestKeptTs. lia. }
  exists ("read_timestamp=" ++ llx (Z.max allCommittedTs oldestKeptTs))%string.
  destruct (wt _ _ =? 0); cbn [snd trace mgr].
  - exists [Unlock]. repeat split; try reflexivity.
    now apply config_number_hex.
  - exists []. repeat split; try reflexivity.
    now apply config_number_hex.
Qed.

Lemma beginTransactionOnOplog_read_timestamp_witness :
  let w100 := snd (setCommittedSnapshot wt_ok 100 100 (init 1 2)) in
  let w50 := snd (setCommittedSnapshot wt_ok 50 50 (init 1 2)) in
  (u64 50 /\ u64 (_oldestKeptTimestamp (mgr w100)) /\
   exists config tail,
     trace (snd (beginTransactionOnOplog wt_ok (mkOplogManager 50) 7 w100)) =
       trace w100 ++ [GetOplogReadTimestamp; Lock;
                      Call (session_begin_transaction 7 config)] ++ tail
     /\ config_number 16 "read_timestamp=" config = Some 100)
  /\
  (u64 100 /\ u64 (_oldestKeptTimestamp (mgr w50)) /\
   exists config tail,
     trace (snd (beginTransactionOnOplog wt_ok (mkOplogManager 100) 7 w50)) =
       trace w50 ++ [GetOplogReadTimestamp; Lock;
                     Call (session_begin_transaction 7 config)] ++ tail
     /\ config_number 16 "read_timestamp=" config = Some 100).
Proof.
  intros w100 w50.
  assert (U50 : u64 50) by (unfold u64, u64_max; lia).
  assert (U100 : u64 100) by (unfold u64, u64_max; lia).
  split.
  - split; [exact U50|]. split; [exact U100|].
    destruct (beginTransactionOnOplog_read_timestamp wt_ok (mkOplogManager 50)
                7 w100 U50 U100) as (config & tail & T & _ & _ & P & _).
    exists config, tail. split; [exact T | exact P].
  - split; [exact U100|]. split; [exact U50|].
    destruct (beginTransactionOnOplog_read_timestamp wt_ok (mkOplogManager 100)
                7 w50 U100 U50) as (config & tail & T & _ & _ & P & _).
    exists config, tail. split; [exact T | exact P].
Defined.

(** C3 (lockstep update).  After an accepted [setCommittedSnapshot name ts]
    the committed snapshot is [name], the oldest kept timestamp is [ts], and
    [ts] went to the engine through [set_timestamp] between the taking and
    the release of the mutex of that same call.  Hence after any run the
    oldest kept timestamp is the [ts] of the most recent accepted call (or
    its starting value when there is none), and no other member function
    writes it. *)
Theorem setCommittedSnapshot_lockstep (wt : list Event -> EngineCall -> Z) :
  (forall name ts w,
      fst (setCommittedSnapshot wt name ts w) = Returned tt ->
      let w' := snd (setCommittedSnapshot wt name ts w) in
      let config := ("oldest_timestamp=" ++ llx ts)%string in
      _committedSnapshot (mgr w') = Some name /\
      _oldestKeptTimestamp (mgr w') = ts /\
      trace w' =
        trace w ++ [Lock; Call (conn_set_timestamp (_conn (mgr w)) config); Unlock] /\
      (u64 ts -> config_number 16 "oldest_timestamp=" config = Some ts))
  /\ (forall ops w,
        _oldestKeptTimestamp (mgr (snd (run wt ops w))) =
        last (map snd (accepted (fst (run wt ops w)))) (_oldestKeptTimestamp (mgr w)))
  /\ (forall op w,
        (forall name ts, op <> SetCommittedSnapshot name ts) ->
        _oldestKeptTimestamp (mgr (snd (step wt op w))) = _oldestKeptTimestamp (mgr w)).
Proof.
  split; [|split].
  - intros name ts w. rewrite setCommittedSnapshot_eq.
    destruct (may_advance _ _); [|discriminate]. cbv zeta.
    destruct (wt _ _ =? 0); [|discriminate]. intros _.
    cbn [snd mgr trace _committedSnapshot _oldestKeptTimestamp].
    unfold oldest_timestamp_call.
    repeat split. intros U. now apply config_number_hex.
  - apply run_oldest.
  - intros op w Hop. rewrite step_oldest.
    destruct op; try reflexivity.
    exfalso. eapply Hop. reflexivity.
Qed.

Lemma setCommittedSnapshot_lockstep_witness :
  let w := init 1 2 in
  let w' := snd (setCommittedSnapshot wt_ok 10 11 w) in
  let ops := [SetCommittedSnapshot 3 30; DropAllSnapshots; SetCommittedSnapshot 2 20;
              BeginTransactionOnOplog (mkOplogManager 5) 7; Shutdown] in
  fst (setCommittedSnapshot wt_ok 10 11 w) = Returned tt
  /\ _committedSnapshot (mgr w') = Some 10
  /\ _oldestKeptTimestamp (mgr w') = 11
  /\ trace w' = [Lock; Call (conn_set_timestamp 1 "oldest_timestamp=b"); Unlock]
  /\ accepted (fst (run wt_ok ops w)) = [(3, 30); (2, 20)]
  /\ _oldestKeptTimestamp (mgr (snd (run wt_ok ops w))) = 20
  /\ (forall name ts, Shutdown <> SetCommittedSnapshot name ts)
  /\ _oldestKeptTimestamp (mgr (snd (step wt_ok Shutdown w'))) = 11.
Proof.
  intros w w' ops.
  destruct (setCommittedSnapshot_lockstep wt_ok) as (A & B & C).
  assert (R : fst (setCommittedSnapshot wt_ok 10 11 w) = Returned tt) by reflexivity.
  destruct (A 10 11 w R) as (A1 & A2 & A3 & _).
  assert (N : forall name ts, Shutdown <> SetCommittedSnapshot name ts)
    by (intros name ts; discriminate).
  split; [exact R|].
  split; [exact A1|].
  split; [exact A2|].
  split; [exact A3|].
  split; [reflexivity|].
  split; [exact (B ops w)|].
  split; [exact N|].
  exact (C Shutdown w' N).
Defined.

(** C4 (committed point not available).  [beginTransactionOnCommittedSnapshot]
    throws [ReadConcernMajorityNotAvailableYet] exactly when there is no
    committed snapshot.  When there is one it calls [begin_transaction] with
    [snapshot=] and that snapshot, and returns the name it used once the
    engine has accepted the call; an engine failure there is fatal. *)
Theorem beginTransactionOnCommittedSnapshot_availability
    (wt : list Event -> EngineCall -> Z) (session : WT_SESSION) (w : World) :
  let r := beginTransactionOnCommittedSnapshot wt session w in
  ((exists reason, fst r = Thrown ReadConcernMajorityNotAvailableYet reason)
   <-> _committedSnapshot (mgr w) = None)
  /\ (_committedSnapshot (mgr w) = None ->
      engine_calls (trace (snd r)) = engine_calls (trace w) /\ mgr (snd r) = mgr w)
  /\ (forall name,
        _committedSnapshot (mgr w) = Some name ->
        let c := session_begin_transaction session ("snapshot=" ++ dec name) in
        engine_calls (trace (snd r)) = engine_calls (trace w) ++ [Call c] /\
        mgr (snd r) = mgr w /\
        (u64 name -> config_number 10 "snapshot=" ("snapshot=" ++ dec name) = Some name) /\
        (wt (trace w ++ [Lock]) c = 0 -> fst r = Returned name) /\
        (wt (trace w ++ [Lock]) c <> 0 ->
         fst r = Aborted (WTError (wt (trace w ++ [Lock]) c)))).
Proof.
  intros r. subst r. rewrite beginTransactionOnCommittedSnapshot_eq.
  unfold snapshot_call.
  destruct (_committedSnapshot (mgr w)) as [name|]; cbv zeta.
  - split; [|split].
    + split; [|discriminate].
      intros [reason H]. destruct (wt _ _ =? 0); discriminate H.
    + discriminate.
    + intros name' E. injection E as <-.
      destruct (Z.eqb_spec (wt (trace w ++ [Lock])
                  (session_begin_transaction session ("snapshot=" ++ dec name))) 0)
        as [E0|N0]; cbn [fst snd trace mgr];
        rewrite engine_calls_app; cbn -[dec String.append].
      * repeat split; try reflexivity.
        -- intros U. now apply config_number_dec.
        -- intros N. contradiction.
      * repeat split; try reflexivity.
        -- intros U. now apply config_number_dec.
        -- intros E0. contradiction.
  - split; [|split].
    + split; [reflexivity|]. intros _. eexists. reflexivity.
    + intros _. cbn [snd trace mgr]. rewrite engine_calls_app. cbn.
      split; [apply app_nil_r | reflexivity].
    + discriminate.
Qed.

Lemma beginTransactionOnCommittedSnapshot_availability_witness :
  let w := init 1 2 in
  let w10 := snd (setCommittedSnapshot wt_ok 10 10 w) in
  (_committedSnapshot (mgr w) = None /\
   exists reason,
     fst (beginTransactionOnCommittedSnapshot wt_ok 7 w) =
       Thrown ReadConcernMajorityNotAvailableYet reason)
  /\ (_committedSnapshot (mgr w10) = Some 10 /\
      wt_ok (trace w10 ++ [Lock]) (session_begin_transaction 7 "snapshot=10") = 0 /\
      fst (beginTransactionOnCommittedSnapshot wt_ok 7 w10) = Returned 10 /\
      engine_calls (trace (snd (beginTransactionOnCommittedSnapshot wt_ok 7 w10))) =
        engine_calls (trace w10) ++ [Call (session_begin_transaction 7 "snapshot=10")]).
Proof.
  intros w w10.
  destruct (beginTransactionOnCommittedSnapshot_availability wt_ok 7 w)
    as ([_ Thr] & _ & _).
  destruct (beginTransactionOnCommittedSnapshot_availability wt_ok 7 w10)
    as (_ & _ & Some10).
  assert (C : _committedSnapshot (mgr w10) = Some 10) by reflexivity.
  destruct (Some10 10 C) as (Calls & _ & _ & Ret & _).
  split.
  - split; [reflexivity | exact (Thr eq_refl)].
  - split; [exact C|]. split; [reflexivity|].
    split; [exact (Ret eq_refl) | exact Calls].
Defined.

(** C5, as stated, fails.  With timestamp and snapshot 10 the engine receives
    [oldest_timestamp=a], [read_timestamp=a] and [snapshot=10]: the two
    timestamps are not padded to a fixed width (16 prints with two digits
    where 10 prints with one), and the snapshot name is in decimal, which
    read as hexadecimal would be 16. *)
Lemma timestamps_fixed_width_hex_counterexample :
  let w := init 1 2 in
  let w10 := snd (setCommittedSnapshot wt_ok 10 10 w) in
  configs (trace w10) = ["oldest_timestamp=a"%string]
  /\ "oldest_timestamp=a"%string <> ("oldest_timestamp=" ++ fixed_width_hex 16 10)%string
  /\ configs (trace (snd (setCommittedSnapshot wt_ok 16 16 w))) =
       ["oldest_timestamp=10"%string]
  /\ ~ fixed_width llx
  /\ configs (trace (snd (beginTransactionOnOplog wt_ok (mkOplogManager 3) 7 w10))) =
       ["oldest_timestamp=a"; "read_timestamp=a"]%string
  /\ "read_timestamp=a"%string <> ("read_timestamp=" ++ fixed_width_hex 16 10)%string
  /\ configs (trace (snd (beginTransactionOnCommittedSnapshot wt_ok 7 w10))) =
       ["oldest_timestamp=a"; "snapshot=10"]%string
  /\ "snapshot=10"%string <> ("snapshot=" ++ llx 10)%string
  /\ config_number 16 "snapshot=" "snapshot=10" = Some 16.
Proof.
  cbv zeta.
  split; [reflexivity|].
  split; [vm_compute; discriminate|].
  split; [reflexivity|].
  split.
  { intros [width H].
    assert (U10 : u64 10) by (unfold u64, u64_max; lia).
    assert (U16 : u64 16) by (unfold u64, u64_max; lia).
    pose proof (H 10 U10) as H10. pose proof (H 16 U16) as H16.
    vm_compute in H10, H16. congruence. }
  split; [reflexivity|].
  split; [vm_compute; discriminate|].
  split; [reflexivity|].
  split; [vm_compute; discriminate|].
  reflexivity.
Qed.

(** C5, amended.  The timestamps in [oldest_timestamp=] and
    [read_timestamp=] are printed by [%llx]: lowercase hexadecimal of the
    least width, between 1 and 16 digits and without padding, which reads
    back as the timestamp.  The snapshot passed by
    [beginTransactionOnCommittedSnapshot] is printed in decimal, like the
    name given to [createSnapshot]. *)
Theorem timestamps_minimal_hex_snapshot_decimal
    (wt : list Event -> EngineCall -> Z) (name ts : Z)
    (oplogManager : WiredTigerOplogManager) (session : WT_SESSION) (w : World) :
  u64 name -> u64 ts -> u64 (oplogReadTimestamp oplogManager) -> well_formed w ->
  let readTimestamp :=
    Z.max (oplogReadTimestamp oplogManager) (_oldestKeptTimestamp (mgr w)) in
  (may_advance (_committedSnapshot (mgr w)) name = true ->
   configs (trace (snd (setCommittedSnapshot wt name ts w))) =
     configs (trace w) ++ [("oldest_timestamp=" ++ llx ts)%string])
  /\ configs (trace (snd (beginTransactionOnOplog wt oplogManager session w))) =
       configs (trace w) ++ [("read_timestamp=" ++ llx readTimestamp)%string]
  /\ (forall committed,
        _committedSnapshot (mgr w) = Some committed ->
        configs (trace (snd (beginTransactionOnCommittedSnapshot wt session w))) =
          configs (trace w) ++ [("snapshot=" ++ dec committed)%string] /\
        parse 10 (dec committed) = Some committed)
  /\ configs (trace (snd (createSnapshot wt session name w))) =
       configs (trace w) ++ [("name=" ++ dec name)%string]
  /\ (forall n, n = ts \/ n = readTimestamp ->
        parse 16 (llx n) = Some n /\
        (1 <= String.length (llx n) <= 16)%nat /\
        (0 < n -> 16 ^ (Z.of_nat (String.length (llx n)) - 1) <= n)).
Proof.
  intros Un Uts Uo [Uold Ucom] readTimestamp.
  assert (Ur : u64 readTimestamp).
  { unfold u64 in *. subst readTimestamp. lia. }
  split; [|split; [|split; [|split]]].
  - intros Adv. rewrite setCommittedSnapshot_eq, Adv. cbv zeta.
    unfold oldest_timestamp_call, configs.
    destruct (wt _ _ =? 0); cbn [snd trace];
      rewrite flat_map_app; cbn -[llx String.append]; reflexivity.
  - rewrite beginTransactionOnOplog_eq. cbv zeta.
    unfold read_timestamp_call, configs. fold readTimestamp.
    destruct (wt _ _ =? 0); cbn [snd trace];
      rewrite flat_map_app; cbn -[llx String.append]; reflexivity.
  - intros committed E. rewrite E in Ucom.
    rewrite beginTransactionOnCommittedSnapshot_eq, E. cbv zeta.
    unfold snapshot_call, configs. split; [|now apply parse_dec].
    destruct (wt _ _ =? 0); cbn [snd trace];
      rewrite flat_map_app; cbn -[dec String.append]; reflexivity.
  - rewrite createSnapshot_eq. cbv zeta. unfold configs. cbn [snd trace].
    rewrite flat_map_app. cbn -[dec String.append]. reflexivity.
  - intros n Hn.
    assert (U : u64 n) by (destruct Hn; subst n; assumption).
    split; [now apply parse_llx|].
    split; [apply llx_length|].
    now apply llx_minimal.
Qed.

Lemma timestamps_minimal_hex_snapshot_decimal_witness :
  let w := snd (setCommittedSnapshot wt_ok 255 4096 (init 1 2)) in
  (u64 300 /\ u64 65535 /\ u64 77 /\ well_formed w /\
   may_advance (_committedSnapshot (mgr w)) 300 = true)
  /\ configs (trace (snd (setCommittedSnapshot wt_ok 300 65535 w))) =
       ["oldest_timestamp=1000"; "oldest_timestamp=ffff"]%string
  /\ configs (trace (snd (beginTransactionOnOplog wt_ok (mkOplogManager 77) 7 w))) =
       ["oldest_timestamp=1000"; "read_timestamp=1000"]%string
  /\ configs (trace (snd (beginTransactionOnCommittedSnapshot wt_ok 7 w))) =
       ["oldest_timestamp=1000"; "snapshot=255"]%string
  /\ parse 16 (llx 65535) = Some 65535.
Proof.
  intros w.
  assert (U1 : u64 300) by (unfold u64, u64_max; lia).
  assert (U2 : u64 65535) by (unfold u64, u64_max; lia).
  assert (U3 : u64 77) by (unfold u64, u64_max; lia).
  assert (WF : well_formed w).
  { unfold well_formed, u64, u64_max; cbn. lia. }
  assert (Adv : may_advance (_committedSnapshot (mgr w)) 300 = true) by reflexivity.
  destruct (timestamps_minimal_hex_snapshot_decimal wt_ok 300 65535
              (mkOplogManager 77) 7 w U1 U2 U3 WF) as (A & B & C & _ & D).
  destruct (C 255 eq_refl) as [C1 _].
  destruct (D 65535 (or_introl eq_refl)) as [D1 _].
  split; [exact (conj U1 (conj U2 (conj U3 (conj WF Adv))))|].
  split; [exact (A Adv)|].
  split; [exact B|].
  split; [exact C1 | exact D1].
Defined.

Lemma parse_until_app (stop : ascii) (base : Z) (s rest : string) :
  char_digit stop = None ->
  forall acc v,
    parse_from base acc s = Some v ->
    parse_until stop base acc (s ++ String stop rest) = Some (v, rest).
Proof.
  intros Hstop. induction s as [|c s IH]; intros acc v H; simpl in *.
  - rewrite Ascii.eqb_refl. congruence.
  - destruct (Ascii.eqb_spec c stop) as [->|_].
    + rewrite Hstop in H. discriminate.
    + destruct (char_digit c) as [d|]; [|discriminate].
      destruct (d <? base); [|discriminate]. now apply IH.
Qed.

Lemma drop_target_before (name : Z) :
  u64 name -> drop_target ("drop=(before=" ++ dec name ++ ")") = Some (DropBefore name).
Proof.
  intros U. unfold drop_target.
  assert (Hne : String.eqb ("drop=(before=" ++ dec name ++ ")") "drop=(all)" = false)
    by reflexivity.
  rewrite Hne, strip_prefix_app.
  pose proof (parse_dec name U) as P. unfold parse in P.
  destruct (dec name) as [|c d] eqn:Ed; [discriminate|].
  rewrite (parse_until_app ")" 10 (String c d) "" eq_refl 0 name P).
  reflexivity.
Qed.

(** C6 (cleanup).  Without a committed snapshot [cleanupUnneededSnapshots]
    returns at once: nothing reaches the engine and the manager is as
    before.  With a committed snapshot (and the administration session still
    open) it makes exactly one engine call, [snapshot] with
    [drop=(before=<committed>)], which names the committed snapshot itself as
    the first one to keep. *)
Theorem cleanupUnneededSnapshots_drops_before_committed
    (wt : list Event -> EngineCall -> Z) (w : World) :
  let r := cleanupUnneededSnapshots wt w in
  (_committedSnapshot (mgr w) = None ->
   fst r = Returned tt /\ mgr (snd r) = mgr w /\
   engine_calls (trace (snd r)) = engine_calls (trace w))
  /\ (forall name session,
        _committedSnapshot (mgr w) = Some name ->
        _session (mgr w) = Some session ->
        let config := ("drop=(before=" ++ dec name ++ ")")%string in
        let c := session_snapshot session config in
        engine_calls (trace (snd r)) = engine_calls (trace w) ++ [Call c] /\
        mgr (snd r) = mgr w /\
        (u64 name -> drop_target config = Some (DropBefore name)) /\
        (wt (trace w ++ [Lock]) c = 0 -> fst r = Returned tt)).
Proof.
  intros r; subst r. rewrite cleanupUnneededSnapshots_eq. split.
  - intros E; rewrite E. cbn [fst snd mgr trace].
    rewrite engine_calls_app. cbn. now rewrite app_nil_r.
  - intros name session E S; rewrite E, S. cbv zeta. unfold drop_before_call.
    destruct (Z.eqb_spec (wt (trace w ++ [Lock])
                (session_snapshot session ("drop=(before=" ++ dec name ++ ")"))) 0)
      as [E0|N0]; cbn [fst snd mgr trace];
      rewrite engine_calls_app; cbn -[dec String.append];
      (split; [reflexivity|]); (split; [reflexivity|]);
      (split; [apply drop_target_before|]); intros; congruence.
Qed.

Lemma cleanupUnneededSnapshots_drops_before_committed_witness :
  let w := init 1 2 in
  let w10 := snd (setCommittedSnapshot wt_ok 10 10 w) in
  (_committedSnapshot (mgr w) = None /\
   fst (cleanupUnneededSnapshots wt_ok w) = Returned tt /\
   engine_calls (trace (snd (cleanupUnneededSnapshots wt_ok w))) = [])
  /\ (_committedSnapshot (mgr w10) = Some 10 /\ _session (mgr w10) = Some 2%nat /\
      u64 10 /\
      engine_calls (trace (snd (cleanupUnneededSnapshots wt_ok w10))) =
        engine_calls (trace w10) ++ [Call (session_snapshot 2 "drop=(before=10)")] /\
      drop_target "drop=(before=10)" = Some (DropBefore 10) /\
      fst (cleanupUnneededSnapshots wt_ok w10) = Returned tt).
Proof.
  intros w w10.
  destruct (cleanupUnneededSnapshots_drops_before_committed wt_ok w) as [N _].
  destruct (cleanupUnneededSnapshots_drops_before_committed wt_ok w10) as [_ Y].
  assert (U : u64 10) by (unfold u64, u64_max; lia).
  destruct (N eq_refl) as (N1 & _ & N3).
  destruct (Y 10 2%nat eq_refl eq_refl) as (Y1 & _ & Y3 & Y4).
  split.
  - split; [reflexivity|]. split; [exact N1 | exact N3].
  - split; [reflexivity|]. split; [reflexivity|]. split; [exact U|].
    split; [exact Y1|]. split; [exact (Y3 U) | exact (Y4 eq_refl)].
Defined.

(** C7 (drop-all reset).  After [dropAllSnapshots] (administration session
    open, engine accepting the call) [getMinSnapshotForNextCommittedRead]
    returns nothing, the engine has received [drop=(all)], and a following
    [setCommittedSnapshot] is accepted whatever its name, also one below the
    committed snapshot from before the reset. *)
Theorem dropAllSnapshots_resets
    (wt : list Event -> EngineCall -> Z) (session : WT_SESSION) (w : World)
    (name ts : Z) :
  _session (mgr w) = Some session ->
  wt (trace w ++ [Lock]) (session_snapshot session "drop=(all)") = 0 ->
  let w1 := snd (dropAllSnapshots wt w) in
  fst (dropAllSnapshots wt w) = Returned tt
  /\ fst (getMinSnapshotForNextCommittedRead w1) = Returned None
  /\ engine_calls (trace w1) =
       engine_calls (trace w) ++ [Call (session_snapshot session "drop=(all)")]
  /\ drop_target "drop=(all)" = Some DropAll
  /\ (wt (trace w1 ++ [Lock]) (oldest_timestamp_call w1 ts) = 0 ->
      fst (setCommittedSnapshot wt name ts w1) = Returned tt /\
      _committedSnapshot (mgr (snd (setCommittedSnapshot wt name ts w1))) = Some name)
  /\ fst (setCommittedSnapshot wt name ts w1) <> Aborted InvariantFailure.
Proof.
  intros S E0 w1. subst w1.
  rewrite dropAllSnapshots_eq, S. cbv zeta. unfold drop_all_call.
  rewrite E0. cbn [Z.eqb fst snd].
  rewrite getMinSnapshotForNextCommittedRead_eq, setCommittedSnapshot_eq.
  cbn [fst snd mgr trace _committedSnapshot set_committedSnapshot may_advance].
  split; [reflexivity|]. split; [reflexivity|].
  split; [rewrite engine_calls_app; reflexivity|].
  split; [reflexivity|].
  cbv zeta. split.
  - intros E1. rewrite E1. split; reflexivity.
  - destruct (wt _ _ =? 0); discriminate.
Qed.

Lemma dropAllSnapshots_resets_witness :
  let w10 := snd (setCommittedSnapshot wt_ok 10 10 (init 1 2)) in
  let w1 := snd (dropAllSnapshots wt_ok w10) in
  (_session (mgr w10) = Some 2%nat /\ _committedSnapshot (mgr w10) = Some 10)
  /\ fst (dropAllSnapshots wt_ok w10) = Returned tt
  /\ fst (getMinSnapshotForNextCommittedRead w1) = Returned None
  /\ fst (setCommittedSnapshot wt_ok 5 5 w1) = Returned tt
  /\ _committedSnapshot (mgr (snd (setCommittedSnapshot wt_ok 5 5 w1))) = Some 5.
Proof.
  intros w10 w1.
  destruct (dropAllSnapshots_resets wt_ok 2%nat w10 5 5 eq_refl eq_refl)
    as (A & B & _ & _ & C & _).
  destruct (C eq_refl) as [C1 C2].
  split; [split; reflexivity|].
  split; [exact A|]. split; [exact B|]. split; [exact C1 | exact C2].
Defined.

(** ** The session pointer *)

Section Session.

Variable wt : list Event -> EngineCall -> Z.

Lemma step_shutdown_closed (w : World) :
  _session (mgr w) = None ->
  step wt Shutdown w = (Returned VVoid, mkWorld (mgr w) (trace w ++ [Lock; Unlock])).
Proof.
  intros S. unfold step, bind, ret. now rewrite shutdown_eq, S.
Qed.

(** Shutting down a manager whose session is already closed, any number
    of times. *)
Lemma run_shutdown_closed (n : nat) (w : World) :
  _session (mgr w) = None ->
  map snd (fst (run wt (repeat Shutdown n) w)) = repeat (Returned VVoid) n /\
  mgr (snd (run wt (repeat Shutdown n) w)) = mgr w /\
  engine_calls (trace (snd (run wt (repeat Shutdown n) w))) = engine_calls (trace w).
Proof.
  revert w; induction n as [|n IH]; intros w S.
  - simpl. auto.
  - cbn [repeat]. rewrite run_cons, (step_shutdown_closed w S).
    cbn [fst snd continues map].
    destruct (IH (mkWorld (mgr w) (trace w ++ [Lock; Unlock])) S) as (L & M & T).
    rewrite L, M, T. cbn [mgr trace].
    rewrite engine_calls_app. cbn. rewrite app_nil_r. auto.
Qed.

(** Nothing reopens the session: once null, the pointer stays null. *)
Lemma step_session_closed (op : Op) (w : World) :
  _session (mgr w) = None -> _session (mgr (snd (step wt op w))) = None.
Proof.
  intros S. destruct op; unfold step, bind, ret.
  - rewrite createSnapshot_eq. exact S.
  - rewrite setCommittedSnapshot_eq.
    destruct (may_advance _ _); cbv zeta; [destruct (wt _ _ =? 0)|]; exact S.
  - rewrite cleanupUnneededSnapshots_eq, S.
    destruct (_committedSnapshot (mgr w)); exact S.
  - rewrite dropAllSnapshots_eq, S. exact S.
  - rewrite shutdown_eq, S. exact S.
  - rewrite getMinSnapshotForNextCommittedRead_eq. exact S.
  - rewrite beginTransactionOnCommittedSnapshot_eq.
    destruct (_committedSnapshot (mgr w)); cbv zeta;
      [destruct (wt _ _ =? 0)|]; exact S.
  - rewrite beginTransactionOnOplog_eq. cbv zeta.
    destruct (wt _ _ =? 0); exact S.
Qed.

End Session.

(** C8 (idempotent shutdown).  The first [shutdown] closes the session, once,
    and clears the pointer; every later [shutdown] finds the pointer null and
    returns without reaching the engine and without touching the manager,
    however often it is called. *)
Theorem shutdown_idempotent
    (wt : list Event -> EngineCall -> Z) (session : WT_SESSION) (w : World)
    (n : nat) :
  _session (mgr w) = Some session ->
  wt (trace w ++ [Lock]) (session_close session) = 0 ->
  let first := shutdown wt w in
  let later := run wt (repeat Shutdown n) (snd first) in
  fst first = Returned tt
  /\ _session (mgr (snd first)) = None
  /\ engine_calls (trace (snd first)) =
       engine_calls (trace w) ++ [Call (session_close session)]
  /\ map snd (fst later) = repeat (Returned VVoid) n
  /\ mgr (snd later) = mgr (snd first)
  /\ engine_calls (trace (snd later)) =
       engine_calls (trace w) ++ [Call (session_close session)]
  /\ filter is_close (engine_calls (trace (snd later))) =
       filter is_close (engine_calls (trace w)) ++ [Call (session_close session)].
Proof.
  intros S E0 first later.
  assert (F : first = (Returned tt,
                       mkWorld (set_session None (mgr w))
                               (trace w ++ [Lock; Call (session_close session); Unlock]))).
  { subst first. rewrite shutdown_eq, S. cbv zeta. now rewrite E0. }
  assert (T1 : engine_calls (trace (snd first)) =
               engine_calls (trace w) ++ [Call (session_close session)]).
  { rewrite F. cbn [snd trace]. now rewrite engine_calls_app. }
  assert (S1 : _session (mgr (snd first)) = None) by (rewrite F; reflexivity).
  destruct (run_shutdown_closed wt n (snd first) S1) as (L & M & T).
  fold later in L, M, T.
  split; [rewrite F; reflexivity|].
  split; [exact S1|].
  split; [exact T1|].
  split; [exact L|].
  split; [exact M|].
  split; [now rewrite T|].
  rewrite T, T1, filter_app. reflexivity.
Qed.

Lemma shutdown_idempotent_witness :
  let w := init 1 2 in
  let first := shutdown wt_ok w in
  let later := run wt_ok (repeat Shutdown 3) (snd first) in
  (_session (mgr w) = Some 2%nat /\
   wt_ok (trace w ++ [Lock]) (session_close 2) = 0)
  /\ fst first = Returned tt
  /\ _session (mgr (snd first)) = None
  /\ map snd (fst later) = [Returned VVoid; Returned VVoid; Returned VVoid]
  /\ engine_calls (trace (snd later)) = [Call (session_close 2)].
Proof.
  intros w first later.
  destruct (shutdown_idempotent wt_ok 2%nat w 3 eq_refl eq_refl)
    as (A & B & _ & C & _ & D & _).
  split; [split; reflexivity|].
  split; [exact A|]. split; [exact B|]. split; [exact C | exact D].
Defined.

(** C9 (frame of the reset).  [dropAllSnapshots] writes the committed
    snapshot and nothing else in the manager: the oldest kept timestamp is
    as before, and a [beginTransactionOnOplog] after the reset takes the
    maximum against the retention floor set before the reset. *)
Theorem dropAllSnapshots_keeps_oldestKeptTimestamp
    (wt : list Event -> EngineCall -> Z) (w : World)
    (oplogManager : WiredTigerOplogManager) (session : WT_SESSION) :
  let w1 := snd (dropAllSnapshots wt w) in
  mgr w1 = set_committedSnapshot None (mgr w)
  /\ _oldestKeptTimestamp (mgr w1) = _oldestKeptTimestamp (mgr w)
  /\ engine_calls (trace (snd (beginTransactionOnOplog wt oplogManager session w1))) =
       engine_calls (trace w1) ++
       [Call (session_begin_transaction session
                ("read_timestamp=" ++
                 llx (Z.max (oplogReadTimestamp oplogManager)
                            (_oldestKeptTimestamp (mgr w)))))].
Proof.
  intros w1.
  assert (M : mgr w1 = set_committedSnapshot None (mgr w)).
  { subst w1. rewrite dropAllSnapshots_eq. cbv zeta.
    destruct (_session (mgr w)); [destruct (wt _ _ =? 0)|]; reflexivity. }
  split; [exact M|]. split; [now rewrite M|].
  rewrite beginTransactionOnOplog_eq. cbv zeta. rewrite M.
  unfold read_timestamp_call. cbn [_oldestKeptTimestamp set_committedSnapshot].
  destruct (wt _ _ =? 0); cbn [snd trace]; rewrite engine_calls_app; reflexivity.
Qed.

(** C10 (use after shutdown).  Only [shutdown] tests the session pointer.
    Once the pointer is null, which is what a successful [shutdown] leaves
    and what no member function undoes, [shutdown] returns normally, while
    [cleanupUnneededSnapshots] with a committed snapshot and
    [dropAllSnapshots] go through the null pointer; [cleanupUnneededSnapshots]
    without a committed snapshot returns before it would. *)
Theorem session_use_after_shutdown
    (wt : list Event -> EngineCall -> Z) (w : World) :
  _session (mgr w) = None ->
  (fst (shutdown wt w) = Returned tt /\ mgr (snd (shutdown wt w)) = mgr w)
  /\ (forall name,
        _committedSnapshot (mgr w) = Some name ->
        fst (cleanupUnneededSnapshots wt w) = NullDereference /\
        engine_calls (trace (snd (cleanupUnneededSnapshots wt w))) =
          engine_calls (trace w))
  /\ (_committedSnapshot (mgr w) = None ->
      fst (cleanupUnneededSnapshots wt w) = Returned tt)
  /\ (fst (dropAllSnapshots wt w) = NullDereference /\
      engine_calls (trace (snd (dropAllSnapshots wt w))) = engine_calls (trace w))
  /\ (forall op, _session (mgr (snd (step wt op w))) = None)
  /\ (forall w0 session,
        _session (mgr w0) = Some session ->
        wt (trace w0 ++ [Lock]) (session_close session) = 0 ->
        fst (shutdown wt w0) = Returned tt /\
        _session (mgr (snd (shutdown wt w0))) = None /\
        _committedSnapshot (mgr (snd (shutdown wt w0))) = _committedSnapshot (mgr w0)).
Proof.
  intros S.
  split; [|split; [|split; [|split; [|split]]]].
  - rewrite shutdown_eq, S. split; reflexivity.
  - intros name C. rewrite cleanupUnneededSnapshots_eq, C, S.
    cbn [fst snd trace]. rewrite engine_calls_app. cbn.
    split; [reflexivity | apply app_nil_r].
  - intros C. rewrite cleanupUnneededSnapshots_eq, C. reflexivity.
  - rewrite dropAllSnapshots_eq, S. cbn [fst snd trace].
    rewrite engine_calls_app. cbn. split; [reflexivity | apply app_nil_r].
  - intros op. now apply step_session_closed.
  - intros w0 session S0 E0. rewrite shutdown_eq, S0. cbv zeta. rewrite E0.
    repeat split.
Qed.

Lemma session_use_after_shutdown_witness :
  let w10 := snd (setCommittedSnapshot wt_ok 10 10 (init 1 2)) in
  let w := snd (shutdown wt_ok w10) in
  _session (mgr w) = None
  /\ _committedSnapshot (mgr w) = Some 10
  /\ fst (shutdown wt_ok w) = Returned tt
  /\ fst (cleanupUnneededSnapshots wt_ok w) = NullDereference
  /\ fst (dropAllSnapshots wt_ok w) = NullDereference
  /\ map snd (fst (run wt_ok [SetCommittedSnapshot 10 10; Shutdown;
                              CleanupUnneededSnapshots] (init 1 2))) =
       [Returned VVoid; Returned VVoid; NullDereference]
  /\ map snd (fst (run wt_ok [Shutdown; DropAllSnapshots] (init 1 2))) =
       [Returned VVoid; NullDereference].
Proof.
  intros w10 w.
  destruct (session_use_after_shutdown wt_ok w eq_refl)
    as ([A _] & B & _ & [C _] & _).
  destruct (B 10 eq_refl) as [B1 _].
  split; [reflexivity|]. split; [reflexivity|].
  split; [exact A|]. split; [exact B1|]. split; [exact C|].
  split; reflexivity.
Defined.

(** * Further properties of the member functions *)

(** Case analysis of one call: every way a member function can go, with the
    outcome and the world written out. *)
Ltac step_analysis wt op w :=
  destruct op; unfold step, bind, ret;
  [ rewrite ?createSnapshot_eq; unfold wtRCToStatus
  | rewrite ?setCommittedSnapshot_eq;
    destruct (may_advance (_committedSnapshot (mgr w)) _) eqn:?
  | rewrite ?cleanupUnneededSnapshots_eq;
    destruct (_committedSnapshot (mgr w)) eqn:?;
    [destruct (_session (mgr w)) eqn:?|]
  | rewrite ?dropAllSnapshots_eq; destruct (_session (mgr w)) eqn:?
  | rewrite ?shutdown_eq; destruct (_session (mgr w)) eqn:?
  | rewrite ?getMinSnapshotForNextCommittedRead_eq
  | rewrite ?beginTransactionOnCommittedSnapshot_eq;
    destruct (_committedSnapshot (mgr w)) eqn:?
  | rewrite ?beginTransactionOnOplog_eq ];
  cbv zeta;
  unfold oldest_timestamp_call, read_timestamp_call, snapshot_call,
    drop_before_call, drop_all_call;
  repeat match goal with
         | |- context [wt ?t ?c =? 0] => destruct (Z.eqb_spec (wt t c) 0)
         end;
  cbn [fst snd mgr trace continues negb _committedSnapshot _oldestKeptTimestamp
       _session _conn set_committedSnapshot set_oldestKeptTimestamp set_session].



(** X2 (buffers).  The two stack buffers hold every 64-bit timestamp: the
    text is stored whole, the size test after [snprintf] succeeds and what
    is stored reads back as the timestamp; the largest timestamp leaves no
    room to spare.  So [setCommittedSnapshot] ends in a failed invariant
    exactly when the monotonicity test fails, and [beginTransactionOnOplog]
    never does. *)
Theorem timestamp_buffers_suffice
    (wt : list Event -> EngineCall -> Z) (name ts : Z)
    (oplogManager : WiredTigerOplogManager) (session : WT_SESSION) (w : World) :
  u64 ts ->
  let oldestSize := Z.of_nat (String.length "oldest_timestamp=") + 8 * 2 + 1 in
  let readSize := 15 + 8 * 2 + 1 in
  (fst (snprintf oldestSize ("oldest_timestamp=" ++ llx ts)) =
     ("oldest_timestamp=" ++ llx ts)%string /\
   snd (snprintf oldestSize ("oldest_timestamp=" ++ llx ts)) < oldestSize /\
   config_number 16 "oldest_timestamp="
     (fst (snprintf oldestSize ("oldest_timestamp=" ++ llx ts))) = Some ts)
  /\ (fst (snprintf readSize ("read_timestamp=" ++ llx ts)) =
        ("read_timestamp=" ++ llx ts)%string /\
      snd (snprintf readSize ("read_timestamp=" ++ llx ts)) < readSize /\
      config_number 16 "read_timestamp="
        (fst (snprintf readSize ("read_timestamp=" ++ llx ts))) = Some ts)
  /\ snd (snprintf oldestSize ("oldest_timestamp=" ++ llx u64_max)) = oldestSize - 1
  /\ snd (snprintf readSize ("read_timestamp=" ++ llx u64_max)) = readSize - 1
  /\ (fst (setCommittedSnapshot wt name ts w) = Aborted InvariantFailure <->
      may_advance (_committedSnapshot (mgr w)) name = false)
  /\ fst (beginTransactionOnOplog wt oplogManager session w) <> Aborted InvariantFailure.
Proof.
  intros U oldestSize readSize.
  destruct (snprintf_llx_fits "oldest_timestamp=" ts) as [O1 O2].
  destruct (snprintf_llx_fits "read_timestamp=" ts) as [R1 R2].
  change (Z.of_nat (String.length "read_timestamp=") + 8 * 2 + 1)
    with readSize in R1, R2.
  fold oldestSize in O1, O2.
  split; [|split; [|split; [|split; [|split]]]].
  - rewrite O1. cbn [fst snd]. split; [reflexivity|].
    split; [now apply Z.ltb_lt | now apply config_number_hex].
  - rewrite R1. cbn [fst snd]. split; [reflexivity|].
    split; [now apply Z.ltb_lt | now apply config_number_hex].
  - reflexivity.
  - reflexivity.
  - rewrite setCommittedSnapshot_eq.
    destruct (may_advance _ _); cbv zeta; [destruct (wt _ _ =? 0)|];
      cbn [fst]; split; congruence.
  - rewrite beginTransactionOnOplog_eq. cbv zeta.
    destruct (wt _ _ =? 0); cbn [fst]; discriminate.
Qed.

Lemma timestamp_buffers_suffice_witness :
  u64 u64_max
  /\ fst (snprintf 34 ("oldest_timestamp=" ++ llx u64_max)) =
       "oldest_timestamp=ffffffffffffffff"%string
  /\ snd (snprintf 34 ("oldest_timestamp=" ++ llx u64_max)) < 34
  /\ fst (beginTransactionOnOplog wt_ok (mkOplogManager u64_max) 7 (init 1 2))
       <> Aborted InvariantFailure.
Proof.
  assert (U : u64 u64_max) by (unfold u64, u64_max; lia).
  destruct (timestamp_buffers_suffice wt_ok 1 u64_max (mkOplogManager u64_max) 7
              (init 1 2) U) as ((A & B & _) & _ & _ & _ & _ & C).
  split; [exact U|]. split; [exact A|]. split; [exact B | exact C].
Defined.

(** X3 (null session).  A call goes through the null session pointer in
    exactly two situations, both with [_session] null: [dropAllSnapshots],
    and [cleanupUnneededSnapshots] while a committed snapshot is set.  No
    other member function, and neither of these two while the session is
    open, ever does. *)
Theorem null_session_dereference_exactly
    (wt : list Event -> EngineCall -> Z) (op : Op) (w : World) :
  fst (step wt op w) = NullDereference <->
  _session (mgr w) = None /\
  (op = DropAllSnapshots \/
   (op = CleanupUnneededSnapshots /\ _committedSnapshot (mgr w) <> None)).
Proof.
  step_analysis wt op w;
    (split;
     [ first [ discriminate
             | intros _; split; [reflexivity|];
               first [ left; reflexivity
                     | right; split; [reflexivity | discriminate] ] ]
     | intros [S [H | [H C]]]; try reflexivity; congruence ]).
Qed.



(** X5 (who writes what).  Whatever the outcome, [_conn] is never written;
    [_session] is written by [shutdown] alone; [_committedSnapshot] by
    [setCommittedSnapshot] and [dropAllSnapshots] alone; and
    [createSnapshot], [cleanupUnneededSnapshots],
    [getMinSnapshotForNextCommittedRead] and the two transaction-begin
    functions leave the whole manager as it was. *)
Theorem manager_fields_written_by
    (wt : list Event -> EngineCall -> Z) (op : Op) (w : World) :
  let m' := mgr (snd (step wt op w)) in
  _conn m' = _conn (mgr w)
  /\ (op <> Shutdown -> _session m' = _session (mgr w))
  /\ ((forall name ts, op <> SetCommittedSnapshot name ts) ->
      op <> DropAllSnapshots ->
      _committedSnapshot m' = _committedSnapshot (mgr w))
  /\ ((forall name ts, op <> SetCommittedSnapshot name ts) ->
      op <> DropAllSnapshots -> op <> Shutdown -> m' = mgr w).
Proof.
  step_analysis wt op w; cbv zeta;
    (split; [reflexivity|]);
    (split; [intros H; congruence|]);
    (split;
     [ intros H1 H2; first [ congruence | exfalso; eapply H1; reflexivity ]
     | intros H1 H2 H3;
       first [ congruence
             | destruct (mgr w); cbn in *; congruence
             | exfalso; eapply H1; reflexivity ] ]).
Qed.

Lemma manager_fields_written_by_witness :
  let w := snd (setCommittedSnapshot wt_ok 3 9 (init 1 2)) in
  let op := BeginTransactionOnOplog (mkOplogManager 50) 7 in
  ((forall name ts, op <> SetCommittedSnapshot name ts) /\
   op <> DropAllSnapshots /\ op <> Shutdown)
  /\ mgr (snd (step wt_ok op w)) = mkManager (Some 3) 9 (Some 2%nat) 1
  /\ _session (mgr (snd (step (wt_fail 5) DropAllSnapshots w))) = Some 2%nat.
Proof.
  intros w op.
  assert (H1 : forall name ts, op <> SetCommittedSnapshot name ts)
    by (intros name ts; discriminate).
  assert (H2 : op <> DropAllSnapshots) by discriminate.
  assert (H3 : op <> Shutdown) by discriminate.
  assert (H4 : DropAllSnapshots <> Shutdown) by discriminate.
  destruct (manager_fields_written_by wt_ok op w) as (_ & _ & _ & A).
  destruct (manager_fields_written_by (wt_fail 5) DropAllSnapshots w) as (_ & B & _).
  split; [exact (conj H1 (conj H2 H3))|].
  split; [exact (A H1 H2 H3) | exact (B H4)].
Defined.

(** Splitting the events of one call at its engine call. *)
Ltac split_at_call w :=
  match goal with
  | |- context [trace w ++ [GetOplogReadTimestamp; Lock; Call ?c; Unlock]] =>
      exists [GetOplogReadTimestamp; Lock], [Call c; Unlock]
  | |- context [trace w ++ [GetOplogReadTimestamp; Lock; Call ?c]] =>
      exists [GetOplogReadTimestamp; Lock], [Call c]
  | |- context [trace w ++ [Lock; Call ?c; Unlock]] =>
      exists [Lock], [Call c; Unlock]
  | |- context [trace w ++ [Lock; Call ?c]] => exists [Lock], [Call c]
  | |- context [trace w ++ [Lock; Unlock]] => exists [Lock; Unlock], (@nil Event)
  | |- context [trace w ++ [Lock]] => exists [Lock], (@nil Event)
  | |- context [trace w ++ [Call ?c]] => exists (@nil Event), [Call c]
  end.

(** X6 (engine failures).  A member function makes at most one engine call,
    and no failure of that call is swallowed: when the engine returns a
    non-zero code the function aborts the process with that code, right
    after the call and with the mutex still held; [createSnapshot], which
    holds no mutex, returns the code to its caller instead.  When the engine
    returns zero the process goes on. *)
Theorem engine_failure_is_fatal
    (wt : list Event -> EngineCall -> Z) (op : Op) (w : World) :
  exists before rest,
    trace (snd (step wt op w)) = trace w ++ before ++ rest
    /\ engine_calls before = []
    /\ (rest = [] \/
        exists c,
          let rc := wt (trace w ++ before) c in
          (rc = 0 /\ continues (fst (step wt op w)) = true /\
           (rest = [Call c; Unlock] \/ rest = [Call c]))
          \/
          (rc <> 0 /\ rest = [Call c] /\
           fst (step wt op w) =
             match op with
             | CreateSnapshot _ _ => Returned (VStatus (StatusError rc))
             | _ => Aborted (WTError rc)
             end)).
Proof.
  step_analysis wt op w; split_at_call w;
    (split; [rewrite <- ?app_assoc; reflexivity|]);
    (split; [reflexivity|]);
    try (left; reflexivity);
    right; eexists; cbv zeta; rewrite ?app_nil_r;
    first [ left; split; [eassumption|]; split; [reflexivity|];
            first [left; reflexivity | right; reflexivity]
          | right; split; [eassumption|]; split; reflexivity ].
Qed.

(** ** Runs, continued *)

Lemma mutex_after_app (held : bool) (t1 t2 : list Event) :
  mutex_after held (t1 ++ t2) =
  match mutex_after held t1 with
  | Some held' => mutex_after held' t2
  | None => None
  end.
Proof.
  revert held; induction t1 as [|e t1 IH]; intros held; [reflexivity|].
  destruct e as [| | |c]; [| | |destruct c]; destruct held; cbn;
    try reflexivity; apply IH.
Qed.

Lemma floor_after_app (floor : Z) (t1 t2 : list Event) :
  floor_after floor (t1 ++ t2) =
  match floor_after floor t1 with
  | Some floor' => floor_after floor' t2
  | None => None
  end.
Proof.
  revert floor; induction t1 as [|e t1 IH]; intros floor; [reflexivity|].
  destruct e as [| | |c]; [| | |destruct c]; cbn -[config_number];
    try apply IH.
  - destruct (config_number 16 "oldest_timestamp=" config); [apply IH | reflexivity].
  - destruct (config_number 16 "read_timestamp=" config) as [r|]; [|apply IH].
    destruct (floor <=? r); [apply IH | reflexivity].
Qed.

Lemma u64_Zmax (a b : Z) : u64 a -> u64 b -> u64 (Z.max a b).
Proof. unfold u64. lia. Qed.

Lemma survived_cons (op : Op) (o : Outcome Value) (log : list (Op * Outcome Value)) :
  survived ((op, o) :: log) = continues o && survived log.
Proof. reflexivity. Qed.

Lemma step_mutex (wt : list Event -> EngineCall -> Z) (op : Op) (w : World) :
  mutex_after false (trace w) = Some false ->
  mutex_after false (trace (snd (step wt op w))) =
  Some (negb (continues (fst (step wt op w)))).
Proof.
  intros F. step_analysis wt op w; rewrite mutex_after_app, F; reflexivity.
Qed.

(** X7 (mutex discipline).  Along any run that starts with the mutex free,
    no member function takes the mutex while it is held, none releases it
    while it is free, the oplog manager is only asked while it is free, and
    [set_timestamp], [close] and [begin_transaction] only happen while it is
    held.  At the end the mutex is free if the process is still running and
    held if the last call aborted or went through the null session. *)
Theorem mutex_discipline
    (wt : list Event -> EngineCall -> Z) (ops : list Op) (w : World) :
  mutex_after false (trace w) = Some false ->
  mutex_after false (trace (snd (run wt ops w))) =
  Some (negb (survived (fst (run wt ops w)))).
Proof.
  revert w; induction ops as [|op rest IH]; intros w F; [exact F|].
  rewrite run_cons. pose proof (step_mutex wt op w F) as S.
  destruct (continues (fst (step wt op w))) eqn:C; cbn [fst snd].
  - rewrite survived_cons, C. cbn [andb]. now apply IH.
  - rewrite survived_cons, C. exact S.
Qed.

Lemma mutex_discipline_witness :
  let w := init 1 2 in
  let ops := [SetCommittedSnapshot 4 4; BeginTransactionOnOplog (mkOplogManager 9) 7;
              CreateSnapshot 7 5; Shutdown; DropAllSnapshots; Shutdown] in
  mutex_after false (trace w) = Some false
  /\ survived (fst (run wt_ok ops w)) = false
  /\ mutex_after false (trace (snd (run wt_ok ops w))) = Some true
  /\ mutex_after false (trace (snd (run wt_ok (firstn 4 ops) w))) = Some false.
Proof.
  intros w ops.
  pose proof (mutex_discipline wt_ok ops w eq_refl) as A.
  pose proof (mutex_discipline wt_ok (firstn 4 ops) w eq_refl) as B.
  split; [reflexivity|]. split; [reflexivity|]. split; [exact A | exact B].
Defined.

Lemma read_timestamp_of_snapshot (value : string) :
  config_number 16 "read_timestamp=" ("snapshot=" ++ value) = None.
Proof. reflexivity. Qed.

Lemma step_floor (wt : list Event -> EngineCall -> Z) (start : Z) (op : Op) (w : World) :
  op_u64 op ->
  floor_after start (trace w) = Some (_oldestKeptTimestamp (mgr w)) ->
  u64 (_oldestKeptTimestamp (mgr w)) ->
  exists floor,
    floor_after start (trace (snd (step wt op w))) = Some floor /\
    (continues (fst (step wt op w)) = true ->
     floor = _oldestKeptTimestamp (mgr (snd (step wt op w))) /\
     u64 (_oldestKeptTimestamp (mgr (snd (step wt op w))))).
Proof.
  intros Hu F U.
  step_analysis wt op w; cbn [op_u64] in Hu;
    rewrite floor_after_app, F; cbn [floor_after];
    rewrite ?read_timestamp_of_snapshot;
    rewrite ?config_number_hex
      by first [ apply Hu | apply u64_Zmax; assumption ];
    rewrite ?(proj2 (Z.leb_le _ _)) by lia;
    (eexists; split; [reflexivity|]);
    intros C; try discriminate C;
    (split; [reflexivity | first [assumption | apply Hu]]).
Qed.

(** X8 (reads stay above the retention floor).  Along any run with 64-bit
    arguments, every [read_timestamp=] the engine receives is at or above
    the most recent [oldest_timestamp=] it received before; and while the
    process runs, that most recent [oldest_timestamp=] is the manager's
    oldest kept timestamp. *)
Theorem reads_never_below_retention_floor
    (wt : list Event -> EngineCall -> Z) (start : Z) (ops : list Op) (w : World) :
  Forall op_u64 ops ->
  floor_after start (trace w) = Some (_oldestKeptTimestamp (mgr w)) ->
  u64 (_oldestKeptTimestamp (mgr w)) ->
  exists floor,
    floor_after start (trace (snd (run wt ops w))) = Some floor /\
    (survived (fst (run wt ops w)) = true ->
     floor = _oldestKeptTimestamp (mgr (snd (run wt ops w)))).
Proof.
  revert w; induction ops as [|op rest IH]; intros w Hu F U.
  - exists (_oldestKeptTimestamp (mgr w)). split; [exact F | reflexivity].
  - inversion Hu as [|? ? Hop Hrest]; subst.
    rewrite run_cons.
    destruct (step_floor wt start op w Hop F U) as (floor & Ff & Fc).
    destruct (continues (fst (step wt op w))) eqn:C; cbn [fst snd].
    + destruct (Fc eq_refl) as [-> U'].
      destruct (IH (snd (step wt op w)) Hrest Ff U') as (floor' & F' & S').
      exists floor'. split; [exact F'|].
      rewrite survived_cons, C. exact S'.
    + exists floor. split; [exact Ff|].
      rewrite survived_cons, C. discriminate.
Qed.

Lemma reads_never_below_retention_floor_witness :
  let w := init 1 2 in
  let ops := [BeginTransactionOnOplog (mkOplogManager 3) 7; SetCommittedSnapshot 4 40;
              BeginTransactionOnOplog (mkOplogManager 9) 7;
              BeginTransactionOnCommittedSnapshot 7; SetCommittedSnapshot 5 50;
              BeginTransactionOnOplog (mkOplogManager 90) 7] in
  (Forall op_u64 ops /\ floor_after 0 (trace w) = Some 0 /\ u64 0)
  /\ configs (trace (snd (run wt_ok ops w))) =
       ["read_timestamp=3"; "oldest_timestamp=28"; "read_timestamp=28";
        "snapshot=4"; "oldest_timestamp=32"; "read_timestamp=5a"]%string
  /\ exists floor, floor_after 0 (trace (snd (run wt_ok ops w))) = Some floor.
Proof.
  intros w ops.
  assert (U0 : u64 0) by (unfold u64, u64_max; lia).
  assert (Hu : Forall op_u64 ops).
  { repeat constructor; cbn; unfold u64, u64_max; lia. }
  destruct (reads_never_below_retention_floor wt_ok 0 ops w Hu eq_refl U0)
    as (floor & F & _).
  split; [exact (conj Hu (conj eq_refl U0))|].
  split; [reflexivity|]. exists floor. exact F.
Defined.

Example floor_after_detects_stale_read :
  floor_after 0 [Call (conn_set_timestamp 1 "oldest_timestamp=28");
                 Call (session_begin_transaction 7 "read_timestamp=3")] = None.
Proof. reflexivity. Qed.

Example mutex_after_detects_double_lock :
  mutex_after false [Lock; Lock] = None /\
  mutex_after false [Lock; GetOplogReadTimestamp; Unlock] = None /\
  mutex_after false [Call (session_close 2)] = None.
Proof. repeat split. Qed.

Lemma thrown_step_needs_none (wt : list Event -> EngineCall -> Z) (op : Op)
    (w : World) (code : ErrorCode) (reason : string) :
  fst (step wt op w) = Thrown code reason -> _committedSnapshot (mgr w) = None.
Proof.
  step_analysis wt op w; intros T; try discriminate T; reflexivity.
Qed.

Lemma step_committed_stays (wt : list Event -> EngineCall -> Z) (op : Op) (w : World) :
  is_dropAll op = false ->
  _committedSnapshot (mgr w) <> None ->
  _committedSnapshot (mgr (snd (step wt op w))) <> None.
Proof.
  intros D N. revert N.
  step_analysis wt op w; try discriminate D; intros N; congruence.
Qed.

Lemma observed_cons (op : Op) (o : Outcome Value) (log : list (Op * Outcome Value)) :
  observed ((op, o) :: log) =
  match o with
  | Returned (VOptName (Some name)) | Returned (VName name) => name :: observed log
  | _ => observed log
  end.
Proof. destruct o as [[| |[]|]| | |]; reflexivity. Qed.

(** What a reader is given is the committed snapshot of that moment, and
    reading does not change it. *)
Lemma step_observed (wt : list Event -> EngineCall -> Z) (op : Op) (w : World)
    (name : Z) :
  fst (step wt op w) = Returned (VOptName (Some name)) \/
  fst (step wt op w) = Returned (VName name) ->
  _committedSnapshot (mgr w) = Some name /\
  _committedSnapshot (mgr (snd (step wt op w))) = Some name.
Proof.
  step_analysis wt op w; intros [H|H]; try discriminate H;
    injection H as H; split; congruence.
Qed.

(** Short of [dropAllSnapshots], a committed snapshot stays and does not go
    down over a call the process survives. *)
Lemma step_committed_grows (wt : list Event -> EngineCall -> Z) (op : Op) (w : World)
    (current : Z) :
  is_dropAll op = false ->
  continues (fst (step wt op w)) = true ->
  _committedSnapshot (mgr w) = Some current ->
  exists current',
    _committedSnapshot (mgr (snd (step wt op w))) = Some current' /\
    current <= current'.
Proof.
  intros D C E. pose proof (step_committed wt op w C) as H.
  destruct op; try discriminate D;
    try (rewrite H; exists current; split; [assumption | lia]).
  destruct H as (Adv & _ & Com). rewrite E in Adv. apply Z.leb_le in Adv.
  exists name. split; assumption.
Qed.

Lemma above_weaken (wt : list Event -> EngineCall -> Z) (op : Op) (w : World)
    (names : list Z) :
  is_dropAll op = false ->
  continues (fst (step wt op w)) = true ->
  above (_committedSnapshot (mgr (snd (step wt op w)))) names ->
  above (_committedSnapshot (mgr w)) names.
Proof.
  intros D C A. unfold above.
  destruct (_committedSnapshot (mgr w)) as [current|] eqn:E; [|exact I].
  destruct (step_committed_grows wt op w current D C E) as (current' & E' & Le).
  rewrite E' in A. cbn in A.
  eapply Forall_impl; [|exact A]. intros a Ha. cbn in Ha. lia.
Qed.

(** X9 (readers never go back).  In a run without [dropAllSnapshots], the
    committed snapshots handed to readers by
    [getMinSnapshotForNextCommittedRead] and
    [beginTransactionOnCommittedSnapshot] never decrease from one reader to
    the next, whatever other calls come in between and whatever the engine
    answers, and none is below the committed snapshot the run started
    with. *)
Theorem readers_never_go_back
    (wt : list Event -> EngineCall -> Z) (ops : list Op) (w : World) :
  existsb is_dropAll ops = false ->
  StronglySorted Z.le (observed (fst (run wt ops w))) /\
  above (_committedSnapshot (mgr w)) (observed (fst (run wt ops w))).
Proof.
  revert w; induction ops as [|op rest IH]; intros w Hno.
  - cbn. split; [constructor | apply above_nil].
  - cbn [existsb] in Hno. apply orb_false_iff in Hno as [Hop Hrest].
    rewrite run_cons.
    destruct (continues (fst (step wt op w))) eqn:C; cbn [fst snd].
    + destruct (IH (snd (step wt op w)) Hrest) as [Sorted Above].
      pose proof (above_weaken wt op w _ Hop C Above) as Above0.
      pose proof (step_observed wt op w) as Obs.
      rewrite observed_cons.
      destruct (fst (step wt op w)) as [[| |[name|]|name]| | |];
        try (split; assumption).
      * destruct (Obs name (or_introl eq_refl)) as [E E'].
        rewrite E' in Above. rewrite E. cbn in Above |- *.
        split; constructor; try assumption; lia.
      * destruct (Obs name (or_intror eq_refl)) as [E E'].
        rewrite E' in Above. rewrite E. cbn in Above |- *.
        split; constructor; try assumption; lia.
    + rewrite observed_cons.
      destruct (fst (step wt op w)) as [v| | |]; try discriminate C;
        cbn; (split; [constructor | apply above_nil]).
Qed.

Lemma readers_never_go_back_witness :
  let ops := [GetMinSnapshotForNextCommittedRead; SetCommittedSnapshot 4 4;
              GetMinSnapshotForNextCommittedRead; SetCommittedSnapshot 4 9;
              BeginTransactionOnCommittedSnapshot 7; SetCommittedSnapshot 6 1;
              CleanupUnneededSnapshots; GetMinSnapshotForNextCommittedRead;
              SetCommittedSnapshot 5 5; GetMinSnapshotForNextCommittedRead] in
  existsb is_dropAll ops = false
  /\ observed (fst (run wt_ok ops (init 1 2))) = [4; 4; 6]
  /\ StronglySorted Z.le [4; 4; 6]
  /\ observed (fst (run wt_ok [SetCommittedSnapshot 9 9; GetMinSnapshotForNextCommittedRead;
                               DropAllSnapshots; SetCommittedSnapshot 2 2;
                               GetMinSnapshotForNextCommittedRead] (init 1 2))) = [9; 2].
Proof.
  intros ops.
  destruct (readers_never_go_back wt_ok ops (init 1 2) eq_refl) as [S _].
  split; [reflexivity|]. split; [reflexivity|]. split; [exact S | reflexivity].
Defined.

(** X10 (the pair moves together).  In a run without [dropAllSnapshots] that
    the process survives, the committed snapshot and the oldest kept
    timestamp are the two arguments of one and the same call, the last
    accepted [setCommittedSnapshot]; without an accepted call both are as at
    the start. *)
Theorem committed_and_oldest_move_together
    (wt : list Event -> EngineCall -> Z) (ops : list Op) (w : World) :
  existsb is_dropAll ops = false ->
  survived (fst (run wt ops w)) = true ->
  (_committedSnapshot (mgr (snd (run wt ops w))),
   _oldestKeptTimestamp (mgr (snd (run wt ops w)))) =
  last (map (fun call => (Some (fst call), snd call)) (accepted (fst (run wt ops w))))
       (_committedSnapshot (mgr w), _oldestKeptTimestamp (mgr w)).
Proof.
  revert w; induction ops as [|op rest IH]; intros w Hno Hs; [reflexivity|].
  cbn [existsb] in Hno. apply orb_false_iff in Hno as [Hop Hrest].
  rewrite run_cons in Hs |- *.
  destruct (continues (fst (step wt op w))) eqn:C; cbn [fst snd] in Hs |- *;
    rewrite survived_cons, C in Hs; [|discriminate Hs].
  cbn [andb] in Hs. rewrite (IH _ Hrest Hs), accepted_cons.
  pose proof (step_committed wt op w C) as Hc.
  pose proof (step_oldest wt op w) as Ho.
  destruct op; try discriminate Hop;
    try (rewrite Hc, Ho; destruct (fst (step wt _ w)); reflexivity).
  destruct Hc as (_ & Ret & Com). rewrite Ret in Ho |- *. rewrite Com, Ho.
  cbn [map fst snd]. now rewrite last_cons_default.
Qed.

Lemma committed_and_oldest_move_together_witness :
  let ops := [SetCommittedSnapshot 4 40; BeginTransactionOnOplog (mkOplogManager 9) 7;
              SetCommittedSnapshot 6 35; CleanupUnneededSnapshots; Shutdown] in
  (existsb is_dropAll ops = false /\ survived (fst (run wt_ok ops (init 1 2))) = true)
  /\ accepted (fst (run wt_ok ops (init 1 2))) = [(4, 40); (6, 35)]
  /\ (_committedSnapshot (mgr (snd (run wt_ok ops (init 1 2)))),
      _oldestKeptTimestamp (mgr (snd (run wt_ok ops (init 1 2))))) = (Some 6, 35).
Proof.
  intros ops.
  pose proof (committed_and_oldest_move_together wt_ok ops (init 1 2) eq_refl eq_refl)
    as P.
  split; [split; reflexivity|]. split; [reflexivity | exact P].
Defined.

(** X11 (availability lasts).  Once there is a committed snapshot, and short
    of [dropAllSnapshots], no later call of a run throws: every
    [beginTransactionOnCommittedSnapshot] finds a committed snapshot, and
    there still is one when the run ends. *)
Theorem committed_snapshot_stays_available
    (wt : list Event -> EngineCall -> Z) (ops : list Op) (w : World) :
  existsb is_dropAll ops = false ->
  _committedSnapshot (mgr w) <> None ->
  Forall (fun entry => forall code reason, snd entry <> Thrown code reason)
         (fst (run wt ops w))
  /\ _committedSnapshot (mgr (snd (run wt ops w))) <> None.
Proof.
  revert w; induction ops as [|op rest IH]; intros w Hno Hc.
  - cbn. split; [constructor | assumption].
  - cbn [existsb] in Hno. apply orb_false_iff in Hno as [Hop Hrest].
    rewrite run_cons.
    assert (NT : forall code reason, fst (step wt op w) <> Thrown code reason).
    { intros code reason T.
      destruct (thrown_step_needs_none wt op w code reason T). contradiction. }
    pose proof (step_committed_stays wt op w Hop Hc) as K.
    destruct (continues (fst (step wt op w))) eqn:C; cbn [fst snd].
    + destruct (IH (snd (step wt op w)) Hrest K) as [F N].
      split; [constructor; [exact NT | exact F] | exact N].
    + split; [constructor; [exact NT | constructor] | exact K].
Qed.

Lemma committed_snapshot_stays_available_witness :
  let w := snd (setCommittedSnapshot wt_ok 4 4 (init 1 2)) in
  let ops := [BeginTransactionOnCommittedSnapshot 7; Shutdown;
              BeginTransactionOnCommittedSnapshot 7; CleanupUnneededSnapshots] in
  (existsb is_dropAll ops = false /\ _committedSnapshot (mgr w) <> None)
  /\ map snd (fst (run wt_ok ops w)) =
       [Returned (VName 4); Returned VVoid; Returned (VName 4); NullDereference]
  /\ _committedSnapshot (mgr (snd (run wt_ok ops w))) <> None.
Proof.
  intros w ops.
  assert (N : _committedSnapshot (mgr w) <> None) by discriminate.
  destruct (committed_snapshot_stays_available wt_ok ops w eq_refl N) as [_ K].
  split; [exact (conj eq_refl N)|]. split; [reflexivity | exact K].
Defined.

(** X12 (no two numbers share a string).  Two different 64-bit timestamps
    give different [oldest_timestamp=] and [read_timestamp=] strings, and
    two different 64-bit snapshot names give different [name=],
    [snapshot=] and [drop=(before=...)] strings: the engine can tell apart
    whatever the manager tells apart. *)
Theorem distinct_numbers_distinct_configs
    (a b : Z) (w : World) (session : WT_SESSION) :
  u64 a -> u64 b -> a <> b ->
  oldest_timestamp_call w a <> oldest_timestamp_call w b
  /\ read_timestamp_call session a <> read_timestamp_call session b
  /\ snapshot_call session a <> snapshot_call session b
  /\ drop_before_call session a <> drop_before_call session b
  /\ session_snapshot session ("name=" ++ dec a) <>
       session_snapshot session ("name=" ++ dec b).
Proof.
  intros Ua Ub N.
  unfold oldest_timestamp_call, read_timestamp_call, snapshot_call, drop_before_call.
  repeat split; intros E; injection E as E; apply N.
  - pose proof (config_number_hex "oldest_timestamp=" a Ua) as Pa.
    pose proof (config_number_hex "oldest_timestamp=" b Ub) as Pb.
    rewrite E in Pa. congruence.
  - pose proof (config_number_hex "read_timestamp=" a Ua) as Pa.
    pose proof (config_number_hex "read_timestamp=" b Ub) as Pb.
    rewrite E in Pa. congruence.
  - pose proof (config_number_dec "snapshot=" a Ua) as Pa.
    pose proof (config_number_dec "snapshot=" b Ub) as Pb.
    rewrite E in Pa. congruence.
  - pose proof (drop_target_before a Ua) as Pa.
    pose proof (drop_target_before b Ub) as Pb.
    rewrite E in Pa. congruence.
  - pose proof (config_number_dec "name=" a Ua) as Pa.
    pose proof (config_number_dec "name=" b Ub) as Pb.
    rewrite E in Pa. congruence.
Qed.

Lemma distinct_numbers_distinct_configs_witness :
  (u64 1 /\ u64 16 /\ 1 <> 16)
  /\ oldest_timestamp_call (init 1 2) 1 <> oldest_timestamp_call (init 1 2) 16
  /\ snapshot_call 7 1 <> snapshot_call 7 16.
Proof.
  assert (U1 : u64 1) by (unfold u64, u64_max; lia).
  assert (U16 : u64 16) by (unfold u64, u64_max; lia).
  assert (N : 1 <> 16) by lia.
  destruct (distinct_numbers_distinct_configs 1 16 (init 1 2) 7 U1 U16 N)
    as (A & _ & B & _).
  split; [exact (conj U1 (conj U16 N))|]. split; [exact A | exact B].
Defined.

(** X13 (independence of the session).  [createSnapshot],
    [setCommittedSnapshot], [getMinSnapshotForNextCommittedRead] and the two
    transaction-begin functions never read [_session]: whatever the pointer
    is, open or null after [shutdown], they end the same way, cause the same
    events and leave the same manager apart from that pointer. *)
Theorem session_not_read
    (wt : list Event -> EngineCall -> Z) (op : Op) (w : World)
    (pointer : option WT_SESSION) :
  op <> CleanupUnneededSnapshots -> op <> DropAllSnapshots -> op <> Shutdown ->
  let w0 := mkWorld (set_session pointer (mgr w)) (trace w) in
  fst (step wt op w0) = fst (step wt op w)
  /\ trace (snd (step wt op w0)) = trace (snd (step wt op w))
  /\ mgr (snd (step wt op w0)) = set_session pointer (mgr (snd (step wt op w))).
Proof.
  intros H1 H2 H3 w0. subst w0.
  destruct op; try congruence; unfold step, bind, ret;
    rewrite ?createSnapshot_eq, ?setCommittedSnapshot_eq,
      ?getMinSnapshotForNextCommittedRead_eq,
      ?beginTransactionOnCommittedSnapshot_eq, ?beginTransactionOnOplog_eq;
    cbv zeta;
    unfold oldest_timestamp_call, read_timestamp_call, snapshot_call;
    cbn [fst snd mgr trace _committedSnapshot _oldestKeptTimestamp _session _conn
         set_session];
    repeat match goal with
           | |- context [may_advance ?c ?n] => destruct (may_advance c n)
           | |- context [wt ?t ?c =? 0] => destruct (wt t c =? 0)
           | |- context [match _committedSnapshot (mgr w) with _ => _ end] =>
               destruct (_committedSnapshot (mgr w))
           end;
    repeat split.
Qed.

Lemma session_not_read_witness :
  let w := init 1 2 in
  let op := SetCommittedSnapshot 4 4 in
  (op <> CleanupUnneededSnapshots /\ op <> DropAllSnapshots /\ op <> Shutdown)
  /\ snd (shutdown wt_ok w) =
       mkWorld (set_session None (mgr w)) [Lock; Call (session_close 2); Unlock]
  /\ fst (step wt_ok op (mkWorld (set_session None (mgr w)) (trace w))) =
       Returned VVoid
  /\ mgr (snd (step wt_ok op (mkWorld (set_session None (mgr w)) (trace w)))) =
       mkManager (Some 4) 4 None 1.
Proof.
  intros w op.
  assert (H1 : op <> CleanupUnneededSnapshots) by discriminate.
  assert (H2 : op <> DropAllSnapshots) by discriminate.
  assert (H3 : op <> Shutdown) by discriminate.
  destruct (session_not_read wt_ok op w None H1 H2 H3) as (A & _ & B).
  split; [exact (conj H1 (conj H2 H3))|]. split; [reflexivity|].
  split; [exact A | exact B].
Defined.
